(** * BlackSwan credit system: the database functions, the seed data and the
    issuer table of the dashboard, embedded and checked against the
    specification.

    Sources embedded here:
    - [db/init_db.sql]: the tables, [get_latest_score], [get_score_change],
      [get_active_events], the default [model_metadata] row and the
      [recent_alerts] view;
    - the historical score seed (the [INSERT INTO score] script);
    - [setup_env.sh]: the model and decay configuration;
    - [ui/components/IssuerTable.tsx]: [sortedIssuers].

    Conventions.  A [TIMESTAMP] is a number of microseconds on the time line
    (an unbounded [Z]); [DOUBLE PRECISION] and JavaScript numbers are binary64
    floats ([PrimFloat.float]); a nullable column is an [option]; a table is
    the list of its rows; a query returns the list of its result rows. *)

From Stdlib Require Import ZArith List Bool Lia String Floats.
From Stdlib Require Import QArith Qabs.
From Stdlib Require Import Reals Lra.
From Stdlib Require Import Sorting.Sorted Permutation.
Import ListNotations.

Set Warnings "-inexact-float,-register-all".

Local Open Scope Z_scope.

(* ================================================================== *)
(** ** A stable sort *)

(** Insertion sort, shared by the model of [ORDER BY] and the model of
    [Array.prototype.sort].  [before x y] says that [x] may stand in front
    of [y]; elements that tie keep their original order. *)
Module Stable.
Section Sort.
Context {A : Type} (before : A -> A -> bool).

Fixpoint insert (x : A) (l : list A) : list A :=
  match l with
  | [] => [x]
  | y :: l' => if before x y then x :: l else y :: insert x l'
  end.

Definition sort (l : list A) : list A := fold_right insert [] l.
End Sort.
End Stable.

(* ================================================================== *)
(** ** SQL building blocks *)

Module Sql.

Definition timestamp := Z.

(** [INTERVAL '1 hour' * n], in microseconds. *)
Definition USECS_PER_HOUR : Z := 3600000000.
Definition hours (n : Z) : Z := USECS_PER_HOUR * n.

(** [col = param] on a nullable integer column: NULL never matches. *)
Definition int_eq (col : option Z) (param : Z) : bool :=
  match col with
  | Some v => v =? param
  | None => false
  end.

(** [col >= bound] on a nullable timestamp column. *)
Definition ts_ge (col : option timestamp) (bound : timestamp) : bool :=
  match col with
  | Some t => bound <=? t
  | None => false
  end.

(** PostgreSQL orders [DOUBLE PRECISION] with NaN equal to itself and above
    every other value. *)
Definition float8_gt (a b : float) : bool :=
  if PrimFloat.is_nan a then negb (PrimFloat.is_nan b)
  else if PrimFloat.is_nan b then false
  else PrimFloat.ltb b a.

Definition float8_le (a b : float) : bool :=
  if PrimFloat.is_nan a then PrimFloat.is_nan b
  else if PrimFloat.is_nan b then true
  else PrimFloat.leb a b.

(** [col > bound] on a nullable float column. *)
Definition float8_col_gt (col : option float) (bound : float) : bool :=
  match col with
  | Some v => float8_gt v bound
  | None => false
  end.

(** [ORDER BY]: SQL leaves the order of rows that tie open; here they keep
    their table order. *)
Definition order_by {A : Type} (before : A -> A -> bool) (l : list A)
  : list A :=
  Stable.sort before l.

(** [ORDER BY key DESC] on a [NOT NULL] timestamp. *)
Definition desc {A : Type} (key : A -> timestamp) (x y : A) : bool :=
  key y <=? key x.

(** [ORDER BY key DESC] on a nullable timestamp: NULLs come first. *)
Definition desc_nulls_first {A : Type} (key : A -> option timestamp)
    (x y : A) : bool :=
  match key x, key y with
  | None, _ => true
  | Some _, None => false
  | Some a, Some b => b <=? a
  end.

Definition limit {A : Type} (n : nat) (l : list A) : list A := firstn n l.

(** A scalar subquery: NULL when it has no row. *)
Definition scalar {A : Type} (l : list A) : option A := hd_error l.

Definition COALESCE {A : Type} (v : option A) (d : A) : A :=
  match v with
  | Some x => x
  | None => d
  end.

(** [l CROSS JOIN r]. *)
Definition cross_join {A B : Type} (l : list A) (r : list B) : list (A * B) :=
  flat_map (fun a => map (fun b => (a, b)) r) l.

(** [l JOIN r ON on]. *)
Definition inner_join {A B : Type} (on : A -> B -> bool)
    (l : list A) (r : list B) : list (A * B) :=
  flat_map (fun a => map (fun b => (a, b)) (filter (on a) r)) l.

(** [l LEFT JOIN r ON on]: a left row without partner is kept, with NULLs. *)
Definition left_join {A B : Type} (on : A -> B -> bool)
    (l : list A) (r : list B) : list (A * option B) :=
  flat_map (fun a =>
              match filter (on a) r with
              | [] => [(a, None)]
              | m => map (fun b => (a, Some b)) m
              end) l.

End Sql.

(* ================================================================== *)
(** ** JSON values *)

(** The fragment of JSON that the [JSONB] columns use.  [jsonb] keeps a
    number as an exact decimal. *)
Inductive json : Type :=
| JNumber (q : Q)
| JString (s : string)
| JObject (fields : list (string * json)).

Module Json.
Fixpoint assoc (k : string) (fields : list (string * json)) : option json :=
  match fields with
  | [] => None
  | (k', v) :: rest => if String.eqb k k' then Some v else assoc k rest
  end.

Definition get (k : string) (j : json) : option json :=
  match j with
  | JObject fields => assoc k fields
  | _ => None
  end.

Definition number (j : option json) : option Q :=
  match j with
  | Some (JNumber q) => Some q
  | _ => None
  end.
End Json.

(* ================================================================== *)
(** ** The tables of [init_db.sql] *)

Module Issuer.
Record row := mk {
  id : Z;
  name : string;
  ticker : option string;
  cik : option string;
  sector : option string;
  country : option string
}.
End Issuer.

Module Score.
Record row := mk {
  id : Z;
  issuer_id : option Z;
  ts : Sql.timestamp;
  score : float;
  bucket : string;
  base : option float;
  market : option float;
  event_delta : option float;
  macro_adj : option float;
  model_version : option string;
  explanation : option json
}.
End Score.

Module Event.
Record row := mk {
  id : Z;
  issuer_id : option Z;
  ts : Sql.timestamp;
  type : string;
  sentiment : option float;
  weight : option float;
  headline : option string;
  url : option string;
  raw_hash : option string;
  decay_factor : option float;
  source : option string
}.

(** [decay_factor DOUBLE PRECISION DEFAULT 1.0]. *)
Definition decay_factor_default : float := 1.0%float.
End Event.

Module AlertSubscription.
Record row := mk {
  id : Z;
  issuer_id : option Z;
  email : option string;
  webhook_url : option string;
  threshold : option float;
  is_active : option bool
}.

(** [threshold DOUBLE PRECISION DEFAULT 5.0]. *)
Definition threshold_default : float := 5.0%float.
End AlertSubscription.

Module AlertHistory.
Record row := mk {
  id : Z;
  subscription_id : option Z;
  issuer_id : option Z;
  alert_type : string;
  message : option string;
  score_change : option float;
  triggered_at : option Sql.timestamp
}.
End AlertHistory.

(* ================================================================== *)
(** ** The functions and the view of [init_db.sql] *)

Module Db.
Import Sql.

(** *** [get_latest_score] *)

Record latest_score_row := mk_latest {
  ls_score : float;
  ls_bucket : string;
  ls_ts : timestamp;
  ls_base : option float;
  ls_market : option float;
  ls_event_delta : option float;
  ls_macro_adj : option float
}.

Definition latest_of (s : Score.row) : latest_score_row :=
  mk_latest (Score.score s) (Score.bucket s) (Score.ts s) (Score.base s)
            (Score.market s) (Score.event_delta s) (Score.macro_adj s).

Definition scores_of (score : list Score.row) (issuer_id_param : Z)
  : list Score.row :=
  filter (fun s => int_eq (Score.issuer_id s) issuer_id_param) score.

Definition get_latest_score (score : list Score.row) (issuer_id_param : Z)
  : list latest_score_row :=
  limit 1
    (map latest_of
       (order_by (desc Score.ts) (scores_of score issuer_id_param))).

(** *** [get_score_change] *)

Record score_change_row := mk_change {
  score_change : float;
  current_score : float;
  previous_score : float
}.

(** The CTE [current_score]: columns [score], [ts]. *)
Definition current_score_cte (score : list Score.row) (issuer_id_param : Z)
  : list (float * timestamp) :=
  limit 1
    (map (fun s => (Score.score s, Score.ts s))
       (order_by (desc Score.ts) (scores_of score issuer_id_param))).

(** The CTE [previous_score]: column [score].  The bound is
    [(SELECT ts FROM current_score) - INTERVAL '1 hour' * hours_back];
    when [current_score] is empty the bound is NULL and no row passes. *)
Definition previous_score_cte (score : list Score.row) (issuer_id_param : Z)
    (hours_back : Z) : list (option float) :=
  let bound :=
    option_map (fun t => t - hours hours_back)
               (scalar (map snd (current_score_cte score issuer_id_param))) in
  limit 1
    (map (fun s => Some (Score.score s))
       (order_by (desc Score.ts)
          (filter (fun s =>
                     int_eq (Score.issuer_id s) issuer_id_param
                     && match bound with
                        | Some b => Score.ts s <=? b
                        | None => false
                        end)
                  score))).

Definition get_score_change (score : list Score.row) (issuer_id_param : Z)
    (hours_back : Z) : list score_change_row :=
  map (fun '((cs_score, _), ps_score) =>
         mk_change (cs_score - COALESCE ps_score cs_score)%float
                   cs_score
                   (COALESCE ps_score cs_score))
      (cross_join (current_score_cte score issuer_id_param)
                  (previous_score_cte score issuer_id_param hours_back)).

(** [hours_back INT DEFAULT 24]. *)
Definition get_score_change_hours_back_default : Z := 24.

(** *** [get_active_events]; [now] is the value of [now()]. *)

Record active_event_row := mk_active {
  ae_event_id : Z;
  ae_event_type : string;
  ae_headline : option string;
  ae_sentiment : option float;
  ae_weight : option float;
  ae_decay_factor : option float;
  ae_ts : timestamp
}.

Definition active_of (e : Event.row) : active_event_row :=
  mk_active (Event.id e) (Event.type e) (Event.headline e)
            (Event.sentiment e) (Event.weight e) (Event.decay_factor e)
            (Event.ts e).

Definition significance_floor : float := 0.1%float.

Definition is_active_event (now : timestamp) (issuer_id_param hours_back : Z)
    (e : Event.row) : bool :=
  int_eq (Event.issuer_id e) issuer_id_param
  && (now - hours hours_back <=? Event.ts e)
  && float8_col_gt (Event.decay_factor e) significance_floor.

Definition get_active_events (event : list Event.row) (now : timestamp)
    (issuer_id_param hours_back : Z) : list active_event_row :=
  map active_of
      (order_by (desc Event.ts)
         (filter (is_active_event now issuer_id_param hours_back) event)).

(** [hours_back INT DEFAULT 168  -- 7 days]. *)
Definition get_active_events_hours_back_default : Z := 168.

(** *** The view [recent_alerts] *)

Record recent_alert_row := mk_recent {
  ra_id : Z;
  ra_alert_type : string;
  ra_message : option string;
  ra_score_change : option float;
  ra_triggered_at : option timestamp;
  ra_issuer_name : string;
  ra_ticker : option string;
  ra_email : option string;
  ra_webhook_url : option string
}.

Definition joined := (AlertHistory.row * Issuer.row
                      * option AlertSubscription.row)%type.

(** [ON ah.issuer_id = i.id]. *)
Definition on_issuer (ah : AlertHistory.row) (i : Issuer.row) : bool :=
  int_eq (AlertHistory.issuer_id ah) (Issuer.id i).

(** [ON ah.subscription_id = asub.id]. *)
Definition on_subscription (l : AlertHistory.row * Issuer.row)
    (asub : AlertSubscription.row) : bool :=
  int_eq (AlertHistory.subscription_id (fst l)) (AlertSubscription.id asub).

Definition joined_triggered_at (j : joined) : option timestamp :=
  AlertHistory.triggered_at (fst (fst j)).

(** The select list. *)
Definition recent_of (j : joined) : recent_alert_row :=
  let '(ah, i, asub) := j in
  mk_recent (AlertHistory.id ah) (AlertHistory.alert_type ah)
            (AlertHistory.message ah) (AlertHistory.score_change ah)
            (AlertHistory.triggered_at ah)
            (Issuer.name i) (Issuer.ticker i)
            (match asub with
             | Some a => AlertSubscription.email a
             | None => None
             end)
            (match asub with
             | Some a => AlertSubscription.webhook_url a
             | None => None
             end).

Definition recent_alerts (alert_history : list AlertHistory.row)
    (issuer : list Issuer.row)
    (alert_subscription : list AlertSubscription.row) (now : timestamp)
  : list recent_alert_row :=
  map recent_of
      (order_by (desc_nulls_first joined_triggered_at)
         (filter (fun j => ts_ge (joined_triggered_at j) (now - hours 24))
            (left_join on_subscription
               (inner_join on_issuer alert_history issuer)
               alert_subscription))).

(** [r1] was triggered no earlier than [r2]. *)
Definition newest_first (r1 r2 : recent_alert_row) : Prop :=
  match ra_triggered_at r1, ra_triggered_at r2 with
  | Some t1, Some t2 => t2 <= t1
  | _, _ => False
  end.

End Db.

(* ================================================================== *)
(** ** Model metadata and configuration *)

(** A decimal read as a [DOUBLE PRECISION]: the quotient of two integers
    that binary64 holds exactly is rounded once, to the nearest double. *)
Definition double_of_decimal (q : Q) : float :=
  let n := PrimFloat.of_uint63 (Uint63.of_Z (Z.abs (Qnum q))) in
  let d := PrimFloat.of_uint63 (Uint63.of_Z (Zpos (Qden q))) in
  if (Qnum q <? 0)%Z then (- (n / d))%float else (n / d)%float.

Module ModelMetadata.
Record row := mk {
  model_version : string;
  model_type : string;
  training_date : option Sql.timestamp;
  performance_metrics : option json;
  feature_importance : option json;
  hyperparameters : option json
}.

(** [INSERT INTO model_metadata (model_version, model_type, training_date,
    hyperparameters) VALUES ('v1.0', 'EBM', now(), ...)]; the columns that
    the statement leaves out are NULL. *)
Definition default (now : Sql.timestamp) : row :=
  mk "v1.0" "EBM" (Some now) None None
     (Some (JObject
              [("scoring_weights"%string,
                JObject [("base"%string, JNumber 0.55);
                         ("market"%string, JNumber 0.25);
                         ("event"%string, JNumber 0.12);
                         ("macro"%string, JNumber 0.08)])])).

(** [hyperparameters -> 'scoring_weights' -> pillar], when it is a number. *)
Definition scoring_weight (m : row) (pillar : string) : option Q :=
  match hyperparameters m with
  | Some h =>
      match Json.get "scoring_weights" h with
      | Some w => Json.number (Json.get pillar w)
      | None => None
      end
  | None => None
  end.
End ModelMetadata.

(** The values that [setup_env.sh] writes to [.env]. *)
Module Env.
Definition MODEL_VERSION : string := "v1.0".
Definition SCORING_WEIGHTS_BASE : Q := 0.55.
Definition SCORING_WEIGHTS_MARKET : Q := 0.25.
Definition SCORING_WEIGHTS_EVENT : Q := 0.12.
Definition SCORING_WEIGHTS_MACRO : Q := 0.08.
Definition EVENT_HALF_LIFE_DAYS : Z := 7.
Definition MAX_DAILY_EVENT_IMPACT : Z := 15.
Definition ALERT_THRESHOLD_SCORE_CHANGE : Z := 5.
Definition ALERT_THRESHOLD_HOURS : Z := 24.
End Env.

(* ================================================================== *)
(** ** The historical score seed *)

Module Seed.
Import Sql.

(** One tuple of the [VALUES] list: [issuer_id], the hours subtracted from
    [NOW()], [score], [bucket], [base], [market], [event_delta],
    [macro_adj]. *)
Record values_row := V {
  v_issuer_id : Z;
  v_hours_ago : Z;
  v_score : float;
  v_bucket : string;
  v_base : float;
  v_market : float;
  v_event_delta : float;
  v_macro_adj : float
}.

Local Open Scope float_scope.
Local Open Scope string_scope.

Definition values : list values_row :=
  [
    (* Apple Inc *)
    V 1 48 87.2 "AA" 60.5 12.8 8.5 5.4;
    V 1 24 88.1 "AA" 61.2 12.9 8.6 5.4;
    (* Microsoft *)
    V 2 48 88.5 "AA" 61.8 13.1 8.7 4.9;
    V 2 24 89.2 "AA" 62.1 13.2 8.8 5.1;
    (* Google *)
    V 3 48 82.1 "A" 58.3 11.2 7.8 4.8;
    V 3 24 83.1 "A" 58.9 11.5 7.9 4.8;
    (* Amazon *)
    V 4 48 81.2 "A" 59.1 11.8 7.5 2.8;
    V 4 24 80.1 "A" 58.7 11.5 7.3 2.6;
    (* Tesla *)
    V 5 48 68.5 "BBB" 52.3 8.9 5.2 2.1;
    V 5 24 67.2 "BBB" 51.8 8.7 5.1 1.6;
    (* JPMorgan *)
    V 6 48 85.3 "AA" 60.2 12.1 8.2 4.8;
    V 6 24 86.1 "AA" 60.8 12.3 8.3 4.7;
    (* Bank of America *)
    V 7 48 78.9 "A" 56.4 10.2 7.1 5.2;
    V 7 24 79.8 "A" 57.1 10.4 7.2 5.1;
    (* Wells Fargo *)
    V 8 48 76.2 "A" 54.8 9.8 6.9 4.7;
    V 8 24 77.1 "A" 55.3 10.1 7.0 4.7;
    (* Walmart *)
    V 9 48 82.7 "A" 58.9 11.3 7.8 4.7;
    V 9 24 83.5 "A" 59.4 11.6 7.9 4.6;
    (* Procter & Gamble *)
    V 10 48 87.1 "AA" 61.2 12.5 8.4 5.0;
    V 10 24 87.9 "AA" 61.7 12.7 8.5 5.0;
    (* Johnson & Johnson *)
    V 11 48 89.3 "AA" 62.8 13.1 8.6 4.8;
    V 11 24 90.1 "AA" 63.2 13.3 8.7 4.9;
    (* Pfizer *)
    V 12 48 75.8 "A" 54.2 9.6 6.8 5.2;
    V 12 24 76.7 "A" 54.8 9.8 6.9 5.2;
    (* Exxon Mobil *)
    V 13 48 71.4 "BBB" 51.8 8.9 6.2 4.5;
    V 13 24 72.3 "BBB" 52.3 9.1 6.3 4.6;
    (* Chevron *)
    V 14 48 73.8 "BBB" 53.1 9.3 6.5 4.9;
    V 14 24 74.7 "BBB" 53.6 9.5 6.6 5.0;
    (* Berkshire Hathaway *)
    V 15 48 91.2 "AA" 64.5 13.8 8.9 4.0;
    V 15 24 92.1 "AA" 65.1 14.0 9.0 4.0
  ].

Local Close Scope float_scope.
Local Close Scope string_scope.

Definition mock_explanation : json :=
  JObject [("source"%string, JString "mock");
           ("explanation"%string, JString "Previous score")].

(** The row that one tuple becomes, inserted at time [now] under [id]. *)
Definition score_row (now : timestamp) (id : Z) (v : values_row) : Score.row :=
  Score.mk id (Some (v_issuer_id v)) (now - hours (v_hours_ago v))
           (v_score v) (v_bucket v)
           (Some (v_base v)) (Some (v_market v))
           (Some (v_event_delta v)) (Some (v_macro_adj v))
           (Some "v1.0-mock"%string) (Some mock_explanation).

(** [INSERT INTO score (issuer_id, ts, ...) VALUES ...], run at time [now]
    with the sequence of [id] standing at [next_id]. *)
Fixpoint insert_into_score (now : timestamp) (next_id : Z)
    (vs : list values_row) : list Score.row :=
  match vs with
  | [] => []
  | v :: rest =>
      score_row now next_id v :: insert_into_score now (next_id + 1) rest
  end.

Definition score (now : timestamp) (next_id : Z) : list Score.row :=
  insert_into_score now next_id values.

(** The table [score] after the script has run on it: the [INSERT] adds its
    30 rows to the scores that are stored already. *)
Definition run (existing : list Score.row) (now : timestamp) (next_id : Z)
  : list Score.row :=
  existing ++ score now next_id.
End Seed.

(* ================================================================== *)
(** ** Score composition, as the specification gives it *)

Module Composer.
Local Open Scope float_scope.

(** Modelled from the spec: the Score Composer is not among the sources;
    this is the clipping [clip(x, lo, hi)] of its composite
    [score = clip(base + market + event_delta + macro_adj, 0, 100)]. *)
Definition clip (x lo hi : float) : float :=
  if x <? lo then lo else if hi <? x then hi else x.

(** Modelled from the spec: the sum of the four pillars of the composite,
    added from left to right. *)
Definition pillar_sum (base market event_delta macro_adj : float) : float :=
  base + market + event_delta + macro_adj.

(** Modelled from the spec: the composite of the Score Composer,
    [clip(base + market + event_delta + macro_adj, 0, 100)]. *)
Definition composite (base market event_delta macro_adj : float) : float :=
  clip (pillar_sum base market event_delta macro_adj) 0 100.

(** The tolerance of the specification's reproducibility property. *)
Definition tolerance : float := 1e-6.

Definition within_tolerance (x y : float) : bool := abs (x - y) <=? tolerance.

(** The four stored pillars of a row, none of them NULL, reproduce its
    stored score within the tolerance. *)
Definition reproduces (s : Score.row) : bool :=
  match Score.base s, Score.market s, Score.event_delta s, Score.macro_adj s
  with
  | Some b, Some m, Some e, Some a =>
      within_tolerance (composite b m e a) (Score.score s)
  | _, _, _, _ => false
  end.

(** Modelled from the spec: the bucket mapping is not among the sources;
    these are the default breakpoints of the specification, each with its
    inclusive lower bound, in descending order; below the last one the
    bucket is CCC. *)
Definition default_breakpoints : list (float * string) :=
  [(90, "AAA"%string); (80, "AA"%string); (70, "A"%string);
   (60, "BBB"%string); (50, "BB"%string); (40, "B"%string)].

Fixpoint bucket_by (breakpoints : list (float * string)) (score : float)
  : string :=
  match breakpoints with
  | [] => "CCC"%string
  | (lower, b) :: rest =>
      if lower <=? score then b else bucket_by rest score
  end.

Definition bucket_of_score (score : float) : string :=
  bucket_by default_breakpoints score.

(** Modelled from the spec: the rating scale of the default breakpoints,
    from the lowest bucket to the highest. *)
Definition rank (bucket : string) : option nat :=
  if String.eqb bucket "CCC" then Some 0%nat
  else if String.eqb bucket "B" then Some 1%nat
  else if String.eqb bucket "BB" then Some 2%nat
  else if String.eqb bucket "BBB" then Some 3%nat
  else if String.eqb bucket "A" then Some 4%nat
  else if String.eqb bucket "AA" then Some 5%nat
  else if String.eqb bucket "AAA" then Some 6%nat
  else None.

Definition rank_le (b1 b2 : string) : bool :=
  match rank b1, rank b2 with
  | Some r1, Some r2 => (r1 <=? r2)%nat
  | _, _ => false
  end.
End Composer.

(* ================================================================== *)
(** ** Event decay, as the specification gives it *)

Module Decay.
Local Open Scope R_scope.

(** [EVENT_HALF_LIFE_DAYS] of [setup_env.sh], in hours: 7 days x 24. *)
Definition default_half_life_hours : R := IZR (Env.EVENT_HALF_LIFE_DAYS * 24).

(** Modelled from the spec: the [elapsed_hours] of the decay formula, the
    hours between the ingestion of the event (its [ts]) and [now]. *)
Definition elapsed_hours (e : Event.row) (now : Sql.timestamp) : R :=
  IZR (now - Event.ts e) / IZR Sql.USECS_PER_HOUR.

(** Modelled from the spec: the Event Decay Tracker is not among the
    sources; this is its
    [decay_factor(event, now) = exp(-ln(2) * elapsed_hours / half_life_hours)]. *)
Definition decay_factor_with (half_life_hours : R) (e : Event.row)
    (now : Sql.timestamp) : R :=
  exp (- ln 2 * elapsed_hours e now / half_life_hours).

Definition decay_factor (e : Event.row) (now : Sql.timestamp) : R :=
  decay_factor_with default_half_life_hours e now.
End Decay.

(* ================================================================== *)
(** ** Alert evaluation, as the specification gives it *)

Module AlertEvaluator.
Import Sql.

(** One scoring cycle as the evaluator sees it: the time the score was
    written, the issuer, the change against the baseline and the text of
    the alert. *)
Record cycle := mk_cycle {
  c_now : timestamp;
  c_issuer_id : Z;
  c_score_change : float;
  c_alert_type : string;
  c_message : string
}.

(** Modelled from the spec: the Alert Evaluator is not among the sources
    (only the tables [alert_subscription] and [alert_history] are); this is
    the head of its section 4.5, [For each active subscription on an issuer
    whose Score was just written]: the subscription is active ([is_active]
    is TRUE, not FALSE or NULL) and its [issuer_id] is the issuer of the
    cycle. *)
Definition applies (sub : AlertSubscription.row) (c : cycle) : bool :=
  match AlertSubscription.is_active sub with
  | Some true => int_eq (AlertSubscription.issuer_id sub) (c_issuer_id c)
  | _ => false
  end.

(** Modelled from the spec: step 2 of section 4.5,
    [|score_change| >= subscription.threshold]. *)
Definition qualifies (sub : AlertSubscription.row) (c : cycle) : bool :=
  match AlertSubscription.threshold sub with
  | Some th => PrimFloat.leb th (PrimFloat.abs (c_score_change c))
  | None => false
  end.

(** Modelled from the spec: step 2a, an alert of this subscription with
    [triggered_at] within the dedupe window that ends at [now], that is, not
    older than [window_hours] hours (the history is written by the cycles,
    at their own times, so that it holds no alert dated after [now]). *)
Definition in_dedupe_window (window_hours : Z) (now : timestamp)
    (sub : AlertSubscription.row) (a : AlertHistory.row) : bool :=
  int_eq (AlertHistory.subscription_id a) (AlertSubscription.id sub)
  && ts_ge (AlertHistory.triggered_at a) (now - hours window_hours).

Definition next_id (alert_history : list AlertHistory.row) : Z :=
  1 + fold_right (fun a m => Z.max (AlertHistory.id a) m) 0 alert_history.

(** Modelled from the spec: the row of step 2b, with the numeric
    [score_change]; [triggered_at] is the time of the write and [id] the
    next value of the sequence. *)
Definition new_alert (alert_history : list AlertHistory.row)
    (sub : AlertSubscription.row) (c : cycle) : AlertHistory.row :=
  AlertHistory.mk (next_id alert_history)
                  (Some (AlertSubscription.id sub)) (Some (c_issuer_id c))
                  (c_alert_type c) (Some (c_message c))
                  (Some (c_score_change c)) (Some (c_now c)).

(** Modelled from the spec: section 4.5 for one subscription, which the
    cycle reaches only when it is active and on the issuer of the cycle, and
    then steps 2, 2a and 2b; the result is [alert_history] after the
    cycle. *)
Definition evaluate (window_hours : Z)
    (alert_history : list AlertHistory.row) (sub : AlertSubscription.row)
    (c : cycle) : list AlertHistory.row :=
  if applies sub c then
    if qualifies sub c then
      if existsb (in_dedupe_window window_hours (c_now c) sub) alert_history
      then alert_history
      else alert_history ++ [new_alert alert_history sub c]
    else alert_history
  else alert_history.

(** Modelled from the spec: one scoring cycle, [For each active subscription
    on an issuer whose Score was just written], over the table
    [alert_subscription]. *)
Definition evaluate_cycle (window_hours : Z)
    (alert_history : list AlertHistory.row)
    (alert_subscription : list AlertSubscription.row) (c : cycle)
  : list AlertHistory.row :=
  fold_left (fun h sub => evaluate window_hours h sub c)
            alert_subscription alert_history.

(** The dedupe window defaults to the alert lookback window,
    [ALERT_THRESHOLD_HOURS] of [setup_env.sh]. *)
Definition default_window_hours : Z := Env.ALERT_THRESHOLD_HOURS.

(** A run of the evaluator: one subscription and one cycle after the
    other. *)
Fixpoint run (window_hours : Z) (alert_history : list AlertHistory.row)
    (steps : list (AlertSubscription.row * cycle)) : list AlertHistory.row :=
  match steps with
  | [] => alert_history
  | (sub, c) :: rest =>
      run window_hours (evaluate window_hours alert_history sub c) rest
  end.

(** The cycles of a run come in the order of time, none before [start]. *)
Fixpoint in_time_order (start : timestamp)
    (steps : list (AlertSubscription.row * cycle)) : Prop :=
  match steps with
  | [] => True
  | (_, c) :: rest => start <= c_now c /\ in_time_order (c_now c) rest
  end.

(** Two alerts of one subscription, the earlier written first, lie more than
    a window apart. *)
Definition apart (window_hours : Z) (a b : AlertHistory.row) : Prop :=
  AlertHistory.subscription_id a = AlertHistory.subscription_id b ->
  match AlertHistory.triggered_at a, AlertHistory.triggered_at b with
  | Some ta, Some tb => ta < tb - hours window_hours
  | _, _ => False
  end.

(** What a run keeps true of the history: every alert carries a time, none
    later than [last], and the alerts of one subscription lie more than a
    window apart. *)
Definition well_spaced (window_hours : Z) (last : timestamp)
    (alert_history : list AlertHistory.row) : Prop :=
  Forall (fun a => exists t, AlertHistory.triggered_at a = Some t /\ t <= last)
         alert_history
  /\ StronglySorted (apart window_hours) alert_history.
End AlertEvaluator.

(* ================================================================== *)
(** ** [IssuerTable.tsx]: the sorted table *)

Module IssuerTable.

(** [interface Issuer]. *)
Record Issuer := mk {
  id : float;
  name : string;
  ticker : option string;
  sector : option string;
  country : option string;
  score : option float;
  bucket : option string;
  delta_24h : float;
  score_ts : option string
}.

(** [keyof Issuer]. *)
Inductive key : Type :=
| k_id | k_name | k_ticker | k_sector | k_country
| k_score | k_bucket | k_delta_24h | k_score_ts.

(** What [a[sortField]] can be. *)
Inductive value : Type :=
| Null
| Str (s : string)
| Num (n : float).

Definition of_string (o : option string) : value :=
  match o with
  | Some s => Str s
  | None => Null
  end.

Definition of_number (o : option float) : value :=
  match o with
  | Some n => Num n
  | None => Null
  end.

Definition get (a : Issuer) (k : key) : value :=
  match k with
  | k_id => Num (id a)
  | k_name => Str (name a)
  | k_ticker => of_string (ticker a)
  | k_sector => of_string (sector a)
  | k_country => of_string (country a)
  | k_score => of_number (score a)
  | k_bucket => of_string (bucket a)
  | k_delta_24h => Num (delta_24h a)
  | k_score_ts => of_string (score_ts a)
  end.

Definition is_null (v : value) : bool :=
  match v with
  | Null => true
  | _ => false
  end.

Inductive direction : Type := asc | desc.

Section Sorted.
(** [String.prototype.localeCompare]: its order depends on the locale of
    the browser. *)
Variable localeCompare : string -> string -> float.

Local Open Scope float_scope.

(** The comparator handed to [sort]. *)
Definition compareFn (sortField : key) (sortDirection : direction)
    (a b : Issuer) : float :=
  let aValue := get a sortField in
  let bValue := get b sortField in
  match aValue, bValue with
  | Null, Null => 0
  | Null, _ => 1
  | _, Null => -1
  | Str x, Str y =>
      match sortDirection with
      | asc => localeCompare x y
      | desc => localeCompare y x
      end
  | Num x, Num y =>
      match sortDirection with
      | asc => x - y
      | desc => y - x
      end
  | _, _ => 0
  end.

(** [Array.prototype.sort] with a comparator: [a] stays in front of [b]
    unless the comparator is positive (NaN counts as [+0]); the sort is
    stable. *)
Definition Array_sort {A : Type} (comparefn : A -> A -> float)
    (array : list A) : list A :=
  Stable.sort (fun a b => negb (0 <? comparefn a b)) array.

Definition sortedIssuers (issuers : list Issuer) (sortField : key)
    (sortDirection : direction) : list Issuer :=
  Array_sort (compareFn sortField sortDirection) issuers.
End Sorted.
End IssuerTable.

(* ================================================================== *)
(** ** The view [issuer_summary] of [init_db.sql] *)

Module IssuerSummary.
Import Sql.

(** [l LEFT JOIN LATERAL (sub) s ON true]: the subquery is run for every
    left row; a left row for which it has no row is kept, with NULLs. *)
Definition left_join_lateral {A B : Type} (sub : A -> list B) (l : list A)
  : list (A * option B) :=
  flat_map (fun a =>
              match sub a with
              | [] => [(a, None)]
              | m => map (fun b => (a, Some b)) m
              end) l.

Record row := mk {
  id : Z;
  name : string;
  ticker : option string;
  sector : option string;
  country : option string;
  latest_score : option float;
  latest_bucket : option string;
  latest_score_ts : option timestamp;
  base : option float;
  market : option float;
  event_delta : option float;
  macro_adj : option float
}.

(** The lateral subquery: [SELECT score, bucket, ts, base, market,
    event_delta, macro_adj FROM score WHERE issuer_id = i.id
    ORDER BY ts DESC LIMIT 1]. *)
Definition latest (score : list Score.row) (i : Issuer.row)
  : list Db.latest_score_row :=
  limit 1
    (map Db.latest_of
       (order_by (desc Score.ts)
          (filter (fun s => int_eq (Score.issuer_id s) (Issuer.id i)) score))).

(** The select list of the view. *)
Definition summary_of (j : Issuer.row * option Db.latest_score_row) : row :=
  let '(i, s) := j in
  mk (Issuer.id i) (Issuer.name i) (Issuer.ticker i) (Issuer.sector i)
     (Issuer.country i)
     (option_map Db.ls_score s) (option_map Db.ls_bucket s)
     (option_map Db.ls_ts s)
     (match s with Some l => Db.ls_base l | None => None end)
     (match s with Some l => Db.ls_market l | None => None end)
     (match s with Some l => Db.ls_event_delta l | None => None end)
     (match s with Some l => Db.ls_macro_adj l | None => None end).

Definition issuer_summary (issuer : list Issuer.row) (score : list Score.row)
  : list row :=
  map summary_of (left_join_lateral (latest score) issuer).
End IssuerSummary.

(* ================================================================== *)
(** ** [IssuerTable.tsx]: the sort controls and the score badge *)

Module IssuerTableView.
Import IssuerTable.

(** The two pieces of state of the component, [sortField] and
    [sortDirection]. *)
Record sort_state := mk_state {
  sortField : key;
  sortDirection : direction
}.

(** [useState<keyof Issuer>('score')], [useState<'asc' | 'desc'>('desc')]. *)
Definition initial_state : sort_state := mk_state k_score desc.

(** [sortField === field]. *)
Definition key_eqb (a b : key) : bool :=
  match a, b with
  | k_id, k_id | k_name, k_name | k_ticker, k_ticker | k_sector, k_sector
  | k_country, k_country | k_score, k_score | k_bucket, k_bucket
  | k_delta_24h, k_delta_24h | k_score_ts, k_score_ts => true
  | _, _ => false
  end.

Definition handleSort (field : key) (s : sort_state) : sort_state :=
  if key_eqb (sortField s) field then
    mk_state (sortField s)
             (match sortDirection s with
              | asc => desc
              | desc => asc
              end)
  else
    mk_state field desc.


(** [String.prototype.toLowerCase], on the letters A to Z; every other
    character is left as it is. *)
Definition lower_char (c : Ascii.ascii) : Ascii.ascii :=
  let n := Ascii.nat_of_ascii c in
  if ((65 <=? n) && (n <=? 90))%nat then Ascii.ascii_of_nat (n + 32) else c.

Fixpoint toLowerCase (s : string) : string :=
  match s with
  | EmptyString => EmptyString
  | String c s' => String (lower_char c) (toLowerCase s')
  end.

(** [String.prototype.includes]: [searchString] occurs somewhere in [s]. *)
Fixpoint includes (s searchString : string) : bool :=
  String.prefix searchString s
  || match s with
     | EmptyString => false
     | String _ s' => includes s' searchString
     end.

Definition badge_gray : string := "score-badge bg-gray-100 text-gray-800".

(** [bucket] is [string | null]; [!bucket] holds for [null] and for the
    empty string. *)
Definition getScoreBadgeClass (bucket : option string) : string :=
  match bucket with
  | None => badge_gray
  | Some EmptyString => badge_gray
  | Some b =>
      let bucketLower := toLowerCase b in
      if includes bucketLower "aaa" || includes bucketLower "aa"
      then "score-badge score-aaa"
      else if includes bucketLower "bbb" then "score-badge score-bbb"
      else if includes bucketLower "bb" then "score-badge score-bb"
      else if String.eqb bucketLower "b" then "score-badge score-b"
      else if includes bucketLower "ccc" || includes bucketLower "cc"
      then "score-badge score-ccc"
      else badge_gray
  end.
End IssuerTableView.

(* ================================================================== *)
(** ** The foreign keys of [init_db.sql] and [ON DELETE CASCADE] *)

Module Price.
Record row := mk {
  id : Z;
  issuer_id : option Z;
  ts : Sql.timestamp;
  open : option Q;
  high : option Q;
  low : option Q;
  close : option Q;
  volume : option Z;
  adj_close : option Q
}.
End Price.

Module FeatureSnapshot.
Record row := mk {
  id : Z;
  issuer_id : option Z;
  ts : Sql.timestamp;
  feature_name : string;
  value : option float;
  source : option string
}.
End FeatureSnapshot.

Module Database.
Import Sql.

(** The tables that hold a reference to [issuer] or to
    [alert_subscription]. *)
Record t := mk {
  issuer : list Issuer.row;
  price : list Price.row;
  feature_snapshot : list FeatureSnapshot.row;
  score : list Score.row;
  event : list Event.row;
  alert_subscription : list AlertSubscription.row;
  alert_history : list AlertHistory.row
}.

(** [col INT REFERENCES parent(id)]: a value that is not NULL is the [id]
    of a row of the parent table. *)
Definition references {A : Type} (col : A -> option Z) (child : list A)
    (parent_ids : list Z) : Prop :=
  forall r k, In r child -> col r = Some k -> In k parent_ids.

(** All the [REFERENCES] clauses of the schema. *)
Definition foreign_keys (d : t) : Prop :=
  let issuers := map Issuer.id (issuer d) in
  references Price.issuer_id (price d) issuers
  /\ references FeatureSnapshot.issuer_id (feature_snapshot d) issuers
  /\ references Score.issuer_id (score d) issuers
  /\ references Event.issuer_id (event d) issuers
  /\ references AlertSubscription.issuer_id (alert_subscription d) issuers
  /\ references AlertHistory.issuer_id (alert_history d) issuers
  /\ references AlertHistory.subscription_id (alert_history d)
                (map AlertSubscription.id (alert_subscription d)).

(** The rows that do not reference [x]. *)
Definition not_referencing {A : Type} (col : A -> option Z) (x : Z)
    (child : list A) : list A :=
  filter (fun r => negb (int_eq (col r) x)) child.

(** [DELETE FROM issuer WHERE id = x]: [ON DELETE CASCADE] deletes the rows
    that reference the issuer, and with the subscriptions of the issuer the
    alerts that reference these subscriptions. *)
Definition delete_issuer (x : Z) (d : t) : t :=
  let deleted_subscriptions :=
    map AlertSubscription.id
        (filter (fun s => int_eq (AlertSubscription.issuer_id s) x)
                (alert_subscription d)) in
  mk (filter (fun i => negb (Issuer.id i =? x)) (issuer d))
     (not_referencing Price.issuer_id x (price d))
     (not_referencing FeatureSnapshot.issuer_id x (feature_snapshot d))
     (not_referencing Score.issuer_id x (score d))
     (not_referencing Event.issuer_id x (event d))
     (not_referencing AlertSubscription.issuer_id x (alert_subscription d))
     (filter (fun a =>
                negb (int_eq (AlertHistory.issuer_id a) x)
                && negb (existsb (int_eq (AlertHistory.subscription_id a))
                                 deleted_subscriptions))
             (alert_history d)).

(** [DELETE FROM alert_subscription WHERE id = x]. *)
Definition delete_subscription (x : Z) (d : t) : t :=
  mk (issuer d) (price d) (feature_snapshot d) (score d) (event d)
     (filter (fun s => negb (AlertSubscription.id s =? x))
             (alert_subscription d))
     (not_referencing AlertHistory.subscription_id x (alert_history d)).
End Database.

(* ================================================================== *)
(** ** Sample data *)

(** A table to try the functions on: issuer 1 has two scores, issuer 2 one. *)
Definition sample_score : list Score.row :=
  [ Score.mk 1 (Some 1) 100 87.2%float "AA" None None None None None None;
    Score.mk 2 (Some 2) 150 70.0%float "A" None None None None None None;
    Score.mk 3 (Some 1) 200 88.1%float "AA" None None None None None None ].

(** An issuer with a single score. *)
Definition one_score : list Score.row :=
  [ Score.mk 1 (Some 1) 100 87.2%float "AA" None None None None None None ].

(** The time at which the samples are looked at. *)
Definition sample_now : Sql.timestamp := Sql.hours 1000.

(** Events of issuer 1 that are 30, 10, 20, 200 and 5 hours old, one of them
    at the significance floor and one without decay factor, and an event of
    issuer 2. *)
Definition sample_event (id issuer_id hours_ago : Z) (decay : option float)
  : Event.row :=
  Event.mk id (Some issuer_id) (sample_now - Sql.hours hours_ago) "earnings"
           (Some 0.9%float) (Some 8.0%float) None None None decay None.

Definition sample_events : list Event.row :=
  [ sample_event 1 1 30 (Some 0.5%float);
    sample_event 2 1 10 (Some 0.1%float);
    sample_event 3 2 10 (Some 0.9%float);
    sample_event 4 1 20 (Some 0.9%float);
    sample_event 5 1 200 (Some 0.9%float);
    sample_event 6 1 5 None ].

(** An event of issuer 1 that is dated five hours after [sample_now]. *)
Definition future_events : list Event.row :=
  [ sample_event 7 1 (-5) (Some 0.9%float) ].

(** Two issuers, one subscription and five alerts: one older than 24 hours,
    one without subscription, one without issuer. *)
Definition sample_issuers : list Issuer.row :=
  [ Issuer.mk 1 "Apple Inc" (Some "AAPL"%string) None None None;
    Issuer.mk 2 "Microsoft" (Some "MSFT"%string) None None None ].

Definition sample_subscriptions : list AlertSubscription.row :=
  [ AlertSubscription.mk 10 (Some 1) (Some "a@example.com"%string) None
                         (Some 5.0%float) (Some true) ].

Definition sample_alert (id : Z) (subscription_id issuer_id : option Z)
    (hours_ago : Z) : AlertHistory.row :=
  AlertHistory.mk id subscription_id issuer_id "score_change" None
                  (Some 6.0%float) (Some (sample_now - Sql.hours hours_ago)).

Definition sample_alerts : list AlertHistory.row :=
  [ sample_alert 1 (Some 10) (Some 1) 30;
    sample_alert 2 (Some 10) (Some 1) 20;
    sample_alert 3 None (Some 2) 3;
    sample_alert 4 (Some 10) None 1;
    sample_alert 5 (Some 10) (Some 1) 2 ].

(** An alert of issuer 1 that is dated 500 hours after [sample_now]. *)
Definition future_alerts : list AlertHistory.row :=
  [ sample_alert 6 (Some 10) (Some 1) (-500) ].

(** A subscription with the default threshold, two qualifying moves ten
    hours apart, and an event. *)
Definition sample_subscription : AlertSubscription.row :=
  AlertSubscription.mk 10 (Some 1) (Some "a@example.com"%string) None
                       (Some 5.0%float) (Some true).

Definition first_move : AlertEvaluator.cycle :=
  AlertEvaluator.mk_cycle (Sql.hours 100) 1 6.0%float "score_change" "up 6.0".

Definition second_move : AlertEvaluator.cycle :=
  AlertEvaluator.mk_cycle (Sql.hours 110) 1 (-7.0)%float "score_change"
                          "down 7.0".

(** A history that holds one alert of the subscription, written at hour 99,
    one hour before the first move. *)
Definition earlier_alert : list AlertHistory.row :=
  [ AlertHistory.mk 1 (Some 10) (Some 1) "score_change" (Some "up 5.5"%string)
                    (Some 5.5%float) (Some (Sql.hours 99)) ].

(** A subscription on issuer 1 that is switched off, and an active one on
    issuer 2. *)
Definition inactive_subscription : AlertSubscription.row :=
  AlertSubscription.mk 12 (Some 1) (Some "b@example.com"%string) None
                       (Some 5.0%float) (Some false).

Definition other_issuer_subscription : AlertSubscription.row :=
  AlertSubscription.mk 11 (Some 2) (Some "c@example.com"%string) None
                       (Some 5.0%float) (Some true).

Definition earnings_event : Event.row :=
  Event.mk 1 (Some 1) (Sql.hours 100) "earnings" (Some 0.9%float)
           (Some 8.0%float) None None None (Some 1.0%float) None.

(** A score table that holds one current score, of issuer 4, written at
    [sample_now]. *)
Definition sample_current : list Score.row :=
  [ Score.mk 1 (Some 4) sample_now 79.5%float "A" (Some 58.2%float)
             (Some 11.4%float) (Some 7.2%float) (Some 2.7%float)
             (Some "v1.0"%string) None ].

(** A database with the sample tables; the alerts without issuer or
    without subscription satisfy the foreign keys. *)
Definition sample_database : Database.t :=
  Database.mk sample_issuers [] [] sample_score sample_events
              sample_subscriptions sample_alerts.

(* ================================================================== *)
(** ** Facts about the stable sort *)

Section StableSortFacts.
Context {A : Type} (before : A -> A -> bool).

Lemma insert_perm (x : A) (l : list A) :
  Permutation (x :: l) (Stable.insert before x l).
Proof.
  induction l as [|y l IH]; simpl.
  - reflexivity.
  - destruct (before x y).
    + reflexivity.
    + rewrite perm_swap. now apply perm_skip.
Qed.

Lemma sort_perm (l : list A) : Permutation l (Stable.sort before l).
Proof.
  induction l as [|x l IH]; simpl.
  - reflexivity.
  - rewrite <- insert_perm. now apply perm_skip.
Qed.

Lemma sort_In (x : A) (l : list A) :
  In x (Stable.sort before l) <-> In x l.
Proof.
  split; intros H.
  - eapply Permutation_in; [symmetry; apply sort_perm | exact H].
  - eapply Permutation_in; [apply sort_perm | exact H].
Qed.

Lemma sort_nil_inv (l : list A) : Stable.sort before l = [] -> l = [].
Proof.
  intros H. apply Permutation_nil. rewrite <- H. symmetry. apply sort_perm.
Qed.

(** The sort orders by any transitive relation that [before] decides. *)
Variable R : A -> A -> Prop.
Hypothesis before_true : forall x y, before x y = true -> R x y.
Hypothesis before_false : forall x y, before x y = false -> R y x.
Hypothesis R_trans : forall x y z, R x y -> R y z -> R x z.

Lemma insert_sorted (x : A) (l : list A) :
  StronglySorted R l -> StronglySorted R (Stable.insert before x l).
Proof.
  induction 1 as [|y l Hs IH Hy]; simpl.
  - constructor; [constructor | constructor].
  - destruct (before x y) eqn:E.
    + constructor.
      * now constructor.
      * constructor; [now apply before_true|].
        rewrite Forall_forall in *. intros z Hz.
        eapply R_trans; [apply before_true; exact E | now apply Hy].
    + constructor; [exact IH|].
      rewrite Forall_forall in *. intros z Hz.
      apply (Permutation_in _ (Permutation_sym (insert_perm x l))) in Hz.
      destruct Hz as [<- | Hz]; [now apply before_false | now apply Hy].
Qed.

Lemma sort_sorted (l : list A) : StronglySorted R (Stable.sort before l).
Proof.
  induction l as [|x l IH]; simpl.
  - constructor.
  - now apply insert_sorted.
Qed.
End StableSortFacts.

(** [ORDER BY key DESC]: the first row carries the greatest key. *)
Section OrderByDesc.
Context {A : Type} (key : A -> Sql.timestamp).

Lemma order_by_desc_sorted (l : list A) :
  StronglySorted (fun x y => key y <= key x) (Sql.order_by (Sql.desc key) l).
Proof.
  unfold Sql.order_by. apply sort_sorted.
  - intros x y H. unfold Sql.desc in H. lia.
  - intros x y H. unfold Sql.desc in H. lia.
  - intros x y z H1 H2. lia.
Qed.

Lemma order_by_desc_head (l : list A) :
  l <> [] ->
  exists s rest,
    Sql.order_by (Sql.desc key) l = s :: rest
    /\ In s l
    /\ forall s', In s' l -> key s' <= key s.
Proof.
  intros Hne.
  pose proof (order_by_desc_sorted l) as Hs.
  pose proof (sort_In (Sql.desc key)) as HIn.
  unfold Sql.order_by in *.
  destruct (Stable.sort (Sql.desc key) l) as [|s rest] eqn:E.
  - apply sort_nil_inv in E. contradiction.
  - exists s, rest. split; [reflexivity|]. split.
    + apply (HIn s l). rewrite E. now left.
    + intros s' Hs'. apply (HIn s' l) in Hs'. rewrite E in Hs'.
      destruct Hs' as [<- | Hs']; [lia|].
      apply StronglySorted_inv in Hs. destruct Hs as [_ Hall].
      rewrite Forall_forall in Hall. now apply Hall.
Qed.
End OrderByDesc.

Lemma int_eq_true (col : option Z) (param : Z) :
  Sql.int_eq col param = true <-> col = Some param.
Proof.
  destruct col as [v|]; simpl.
  - rewrite Z.eqb_eq. split; [now intros -> | now intros [= ->]].
  - split; discriminate.
Qed.

Lemma scores_of_In (score : list Score.row) (i : Z) (s : Score.row) :
  In s (Db.scores_of score i) <-> In s score /\ Score.issuer_id s = Some i.
Proof.
  unfold Db.scores_of. rewrite filter_In, int_eq_true. reflexivity.
Qed.

(* ================================================================== *)
(** ** [get_latest_score] *)

Example get_latest_score_sample :
  map Db.ls_ts (Db.get_latest_score sample_score 1) = [200]
  /\ Db.get_latest_score sample_score 7 = [].
Proof. split; reflexivity. Qed.

(** C9.  [get_latest_score(issuer_id)] returns exactly one row when the
    issuer has a Score row: its seven columns [score], [bucket], [ts],
    [base], [market], [event_delta] and [macro_adj] are those of a Score row
    of that issuer whose timestamp is the greatest among the issuer's rows.
    It returns no row at all when the issuer has none. *)
Theorem get_latest_score_one_or_none (score : list Score.row) (issuer_id : Z) :
  ((exists s0, In s0 score /\ Score.issuer_id s0 = Some issuer_id) ->
   exists s r,
     In s score
     /\ Score.issuer_id s = Some issuer_id
     /\ (forall s', In s' score -> Score.issuer_id s' = Some issuer_id ->
                    Score.ts s' <= Score.ts s)
     /\ Db.get_latest_score score issuer_id = [r]
     /\ Db.ls_score r = Score.score s
     /\ Db.ls_bucket r = Score.bucket s
     /\ Db.ls_ts r = Score.ts s
     /\ Db.ls_base r = Score.base s
     /\ Db.ls_market r = Score.market s
     /\ Db.ls_event_delta r = Score.event_delta s
     /\ Db.ls_macro_adj r = Score.macro_adj s)
  /\ ((forall s0, In s0 score -> Score.issuer_id s0 <> Some issuer_id) ->
      Db.get_latest_score score issuer_id = []).
Proof.
  split.
  - intros [s0 [Hin Hid]].
    assert (Hne : Db.scores_of score issuer_id <> []).
    { intros E. assert (H : In s0 (Db.scores_of score issuer_id))
        by now apply scores_of_In.
      rewrite E in H. contradiction. }
    destruct (order_by_desc_head Score.ts _ Hne) as [s [rest [E [Hs Hmax]]]].
    apply scores_of_In in Hs. destruct Hs as [Hs1 Hs2].
    exists s, (Db.latest_of s). repeat split; try assumption.
    + intros s' H1 H2. apply Hmax. now apply scores_of_In.
    + unfold Db.get_latest_score. rewrite E. reflexivity.
  - intros Hnone. unfold Db.get_latest_score.
    assert (E : Db.scores_of score issuer_id = []).
    { destruct (Db.scores_of score issuer_id) as [|s l] eqn:E; [reflexivity|].
      assert (H : In s (Db.scores_of score issuer_id)) by (rewrite E; now left).
      apply scores_of_In in H. destruct H as [H1 H2].
      exfalso. exact (Hnone s H1 H2). }
    rewrite E. reflexivity.
Qed.

Lemma get_latest_score_one_or_none_witness :
  exists s r,
    In s sample_score
    /\ Score.issuer_id s = Some 1
    /\ (forall s', In s' sample_score -> Score.issuer_id s' = Some 1 ->
                   Score.ts s' <= Score.ts s)
    /\ Db.get_latest_score sample_score 1 = [r]
    /\ Db.ls_score r = Score.score s
    /\ Db.ls_bucket r = Score.bucket s
    /\ Db.ls_ts r = Score.ts s
    /\ Db.ls_base r = Score.base s
    /\ Db.ls_market r = Score.market s
    /\ Db.ls_event_delta r = Score.event_delta s
    /\ Db.ls_macro_adj r = Score.macro_adj s.
Proof.
  apply (proj1 (get_latest_score_one_or_none sample_score 1)).
  exists (Score.mk 1 (Some 1) 100 87.2%float "AA" None None None None None None).
  split; [simpl; left; reflexivity | reflexivity].
Defined.

(* ================================================================== *)
(** ** [get_score_change] *)

Example get_score_change_sample :
  Db.get_score_change sample_score 1 0
  = [Db.mk_change 0%float 88.1%float 88.1%float]
  /\ map Db.previous_score (Db.get_score_change sample_score 1 (-1))
     = [88.1%float].
Proof. split; reflexivity. Qed.

(** On the seed, whose rows are 48 and 24 hours old, a look back of 24 hours
    finds the older row; a look back of 25 hours finds none, and the result
    is empty. *)
Example get_score_change_seed :
  Db.get_score_change (Seed.score sample_now 1) 1 24
  = [Db.mk_change (88.1 - 87.2)%float 88.1%float 87.2%float]
  /\ Db.get_score_change (Seed.score sample_now 1) 1 25 = [].
Proof. split; reflexivity. Qed.

Lemma filter_none {A : Type} (f : A -> bool) (l : list A) :
  (forall x, In x l -> f x = false) -> filter f l = [].
Proof.
  induction l as [|x l IH]; intros H; simpl.
  - reflexivity.
  - rewrite (H x (or_introl eq_refl)). apply IH.
    intros y Hy. apply H. now right.
Qed.

(** Whenever the issuer has scores and none of them lies at or before the
    latest one minus [hours_back] hours, the CTE [previous_score] is empty,
    the cross join with it is empty, and [get_score_change] returns no row:
    the [COALESCE] never gets to supply the current score. *)
Lemma get_score_change_without_prior (score : list Score.row)
    (issuer_id hours_back : Z) :
  (forall c s,
      In c score -> Score.issuer_id c = Some issuer_id ->
      (forall s', In s' score -> Score.issuer_id s' = Some issuer_id ->
                  Score.ts s' <= Score.ts c) ->
      In s score -> Score.issuer_id s = Some issuer_id ->
      Score.ts c - Sql.hours hours_back < Score.ts s) ->
  Db.get_score_change score issuer_id hours_back = [].
Proof.
  intros Hno.
  assert (Hprev : Db.previous_score_cte score issuer_id hours_back = []).
  { unfold Db.previous_score_cte, Db.current_score_cte.
    destruct (Db.scores_of score issuer_id) as [|s0 l0] eqn:E.
    - simpl. rewrite filter_none; [reflexivity|].
      intros x _. apply andb_false_r.
    - assert (Hne : Db.scores_of score issuer_id <> []) by (rewrite E; discriminate).
      destruct (order_by_desc_head Score.ts _ Hne) as [c [rest [Ec [Hc Hmax]]]].
      rewrite E in Ec. rewrite Ec. simpl.
      apply scores_of_In in Hc. destruct Hc as [Hc1 Hc2].
      rewrite filter_none; [reflexivity|].
      intros x Hx.
      destruct (Sql.int_eq (Score.issuer_id x) issuer_id) eqn:Ex; [|reflexivity].
      apply int_eq_true in Ex. simpl.
      apply Z.leb_gt. apply (Hno c x); try assumption.
      intros s' H1 H2. apply Hmax. now apply scores_of_In. }
  unfold Db.get_score_change. rewrite Hprev.
  unfold Sql.cross_join.
  induction (Db.current_score_cte score issuer_id) as [|a l IH]; simpl; auto.
Qed.

(** C1.  On the table where issuer 1 has a single Score row (so no row at or
    before the latest timestamp minus 24 hours), [get_score_change(1, 24)]
    returns no row at all, where the specification expects the fallback row with
    [score_change = 0] and [previous_score = current_score]. *)
Theorem get_score_change_single_row_is_empty :
  Db.get_score_change one_score 1 Db.get_score_change_hours_back_default = [].
Proof.
  apply get_score_change_without_prior.
  intros c s Hc _ _ Hs _.
  destruct Hc as [<- | []]. destruct Hs as [<- | []].
  vm_compute. reflexivity.
Qed.

(* ================================================================== *)
(** ** [get_active_events] *)

Lemma SFcompare_antisym (x y : spec_float) :
  SFcompare y x = option_map CompOpp (SFcompare x y).
Proof.
  destruct x as [sx|sx| |sx mx ex], y as [sy|sy| |sy my ey]; simpl;
    try destruct sx; try destruct sy; simpl; try reflexivity.
  - rewrite (Z.compare_antisym ex ey).
    destruct (ex ?= ey)%Z; simpl; try reflexivity.
    rewrite CompOpp_involutive. f_equal. f_equal.
    rewrite Pos.compare_cont_antisym. reflexivity.
  - rewrite (Z.compare_antisym ex ey).
    destruct (ex ?= ey)%Z; simpl; try reflexivity.
    rewrite Pos.compare_cont_antisym. reflexivity.
Qed.

Lemma is_nan_false (a : float) :
  PrimFloat.is_nan a = false -> Prim2SF a <> S754_nan.
Proof.
  unfold PrimFloat.is_nan. rewrite FloatAxioms.eqb_spec. intros H E. rewrite E in H.
  discriminate.
Qed.

Lemma SFcompare_some (x y : spec_float) :
  x <> S754_nan -> y <> S754_nan -> SFcompare x y <> None.
Proof.
  destruct x, y; simpl; try congruence; intros;
    repeat match goal with
           | |- context [if ?b then _ else _] => destruct b
           end; discriminate.
Qed.

Lemma ltb_negb_leb (a b : float) :
  PrimFloat.is_nan a = false -> PrimFloat.is_nan b = false ->
  PrimFloat.ltb b a = negb (PrimFloat.leb a b).
Proof.
  intros Ha Hb. apply is_nan_false in Ha. apply is_nan_false in Hb.
  rewrite FloatAxioms.ltb_spec, FloatAxioms.leb_spec. unfold SFltb, SFleb.
  rewrite (SFcompare_antisym (Prim2SF a) (Prim2SF b)).
  pose proof (SFcompare_some _ _ Ha Hb) as Hs.
  destruct (SFcompare (Prim2SF a) (Prim2SF b)) as [[| |]|]; simpl; congruence.
Qed.

(** In the order of [DOUBLE PRECISION], [a > b] is the negation of
    [a <= b]. *)
Lemma float8_gt_negb_le (a b : float) :
  Sql.float8_gt a b = negb (Sql.float8_le a b).
Proof.
  unfold Sql.float8_gt, Sql.float8_le.
  destruct (PrimFloat.is_nan a) eqn:Ea; [reflexivity|].
  destruct (PrimFloat.is_nan b) eqn:Eb; [reflexivity|].
  now apply ltb_negb_leb.
Qed.

Example get_active_events_sample :
  map Db.ae_event_id
      (Db.get_active_events sample_events sample_now 1
                            Db.get_active_events_hours_back_default)
  = [4; 1].
Proof. reflexivity. Qed.

(** C5.  Every row that [get_active_events(issuer_id, hours_back)] returns
    carries the seven columns of a stored event of that issuer; its [ts] is
    at or after [now()] minus [hours_back] hours, which is the only bound on
    it (there is none from above), and its [decay_factor] is not NULL and
    strictly greater than 0.1, never at or below 0.1. *)
Theorem get_active_events_sound (event : list Event.row) (now : Sql.timestamp)
    (issuer_id hours_back : Z) (r : Db.active_event_row) :
  In r (Db.get_active_events event now issuer_id hours_back) ->
  exists e d,
    In e event
    /\ Event.issuer_id e = Some issuer_id
    /\ Db.ae_event_id r = Event.id e
    /\ Db.ae_event_type r = Event.type e
    /\ Db.ae_headline r = Event.headline e
    /\ Db.ae_sentiment r = Event.sentiment e
    /\ Db.ae_weight r = Event.weight e
    /\ Db.ae_decay_factor r = Event.decay_factor e
    /\ Db.ae_ts r = Event.ts e
    /\ now - Sql.hours hours_back <= Db.ae_ts r
    /\ Db.ae_decay_factor r = Some d
    /\ Sql.float8_gt d 0.1%float = true
    /\ Sql.float8_le d 0.1%float = false.
Proof.
  unfold Db.get_active_events. intros H.
  apply in_map_iff in H. destruct H as [e [<- H]].
  unfold Sql.order_by in H. apply sort_In in H.
  apply filter_In in H. destruct H as [Hin Hact].
  unfold Db.is_active_event in Hact.
  apply andb_prop in Hact. destruct Hact as [Hact Hd].
  apply andb_prop in Hact. destruct Hact as [Hi Ht].
  apply int_eq_true in Hi. apply Z.leb_le in Ht.
  unfold Sql.float8_col_gt in Hd.
  destruct (Event.decay_factor e) as [d|] eqn:Ed; [|discriminate].
  exists e, d. simpl. repeat split; try assumption.
  unfold Db.significance_floor in Hd.
  rewrite float8_gt_negb_le in Hd. now apply negb_true_iff.
Qed.

Lemma get_active_events_sound_witness :
  exists e d,
    In e sample_events
    /\ Event.issuer_id e = Some 1
    /\ 4 = Event.id e
    /\ "earnings"%string = Event.type e
    /\ None = Event.headline e
    /\ Some 0.9%float = Event.sentiment e
    /\ Some 8.0%float = Event.weight e
    /\ Some 0.9%float = Event.decay_factor e
    /\ sample_now - Sql.hours 20 = Event.ts e
    /\ sample_now - Sql.hours 168 <= sample_now - Sql.hours 20
    /\ Some 0.9%float = Some d
    /\ Sql.float8_gt d 0.1%float = true
    /\ Sql.float8_le d 0.1%float = false.
Proof.
  apply (get_active_events_sound sample_events sample_now 1 168
           (Db.mk_active 4 "earnings" None (Some 0.9%float) (Some 8.0%float)
                         (Some 0.9%float) (sample_now - Sql.hours 20))).
  vm_compute. left. reflexivity.
Defined.

(** An event of issuer 1 that is dated five hours after [now()] is returned
    for a look back of one hour: its timestamp is not within the last
    hour. *)
Lemma get_active_events_returns_future_event :
  exists r,
    In r (Db.get_active_events future_events sample_now 1 1)
    /\ Db.ae_event_id r = 7
    /\ Db.ae_ts r = sample_now + Sql.hours 5
    /\ sample_now < Db.ae_ts r.
Proof.
  exists (Db.mk_active 7 "earnings" None (Some 0.9%float) (Some 8.0%float)
                       (Some 0.9%float) (sample_now + Sql.hours 5)).
  split; [vm_compute; left; reflexivity|].
  split; [reflexivity|]. split; [reflexivity|].
  vm_compute. reflexivity.
Qed.

(* ================================================================== *)
(** ** The view [recent_alerts] *)

Lemma inner_join_In {A B : Type} (on : A -> B -> bool) (l : list A)
    (r : list B) (a : A) (b : B) :
  In (a, b) (Sql.inner_join on l r) <-> In a l /\ In b r /\ on a b = true.
Proof.
  unfold Sql.inner_join. rewrite in_flat_map. split.
  - intros [a' [Ha H]]. apply in_map_iff in H.
    destruct H as [b' [E Hb]]. injection E as -> ->.
    apply filter_In in Hb. tauto.
  - intros [Ha [Hb Hon]]. exists a. split; [exact Ha|].
    apply in_map_iff. exists b. split; [reflexivity|].
    apply filter_In. tauto.
Qed.

Lemma left_join_In {A B : Type} (on : A -> B -> bool) (l : list A)
    (r : list B) (a : A) (ob : option B) :
  In (a, ob) (Sql.left_join on l r) ->
  In a l
  /\ match ob with
     | Some b => In b r /\ on a b = true
     | None => forall b, In b r -> on a b = false
     end.
Proof.
  unfold Sql.left_join. rewrite in_flat_map.
  intros [a' [Ha H]].
  destruct (filter (on a') r) as [|b0 m] eqn:E.
  - destruct H as [H | []]. injection H as -> <-.
    split; [exact Ha|]. intros b Hb.
    destruct (on a b) eqn:Eon; [|reflexivity].
    assert (Hf : In b (filter (on a) r)) by (apply filter_In; tauto).
    rewrite E in Hf. contradiction.
  - apply in_map_iff in H. destruct H as [b [Eq Hb]].
    injection Eq as -> <-. split; [exact Ha|].
    rewrite <- E in Hb. apply filter_In in Hb. exact Hb.
Qed.

Lemma StronglySorted_map {A B : Type} (f : A -> B) (R : B -> B -> Prop)
    (l : list A) :
  StronglySorted (fun x y => R (f x) (f y)) l -> StronglySorted R (map f l).
Proof.
  induction 1 as [|x l Hs IH Hx]; simpl; constructor.
  - exact IH.
  - rewrite Forall_forall in *. intros y Hy.
    apply in_map_iff in Hy. destruct Hy as [z [<- Hz]]. now apply Hx.
Qed.

Lemma StronglySorted_restrict {A : Type} (R : A -> A -> Prop) (P : A -> Prop)
    (l : list A) :
  StronglySorted R l -> Forall P l ->
  StronglySorted (fun x y => R x y /\ P x /\ P y) l.
Proof.
  induction 1 as [|x l Hs IH Hx]; intros HP; constructor.
  - apply IH. now inversion HP.
  - inversion HP as [|? ? Px Pl]; subst.
    rewrite Forall_forall in *. intros y Hy. auto.
Qed.

Lemma StronglySorted_weaken {A : Type} (R R' : A -> A -> Prop) (l : list A) :
  (forall x y, R x y -> R' x y) -> StronglySorted R l -> StronglySorted R' l.
Proof.
  intros HR. induction 1 as [|x l Hs IH Hx]; constructor.
  - exact IH.
  - rewrite Forall_forall in *. auto.
Qed.

Lemma order_by_desc_nulls_first_sorted {A : Type}
    (key : A -> option Sql.timestamp) (l : list A) :
  StronglySorted (fun x y => Sql.desc_nulls_first key x y = true)
                 (Sql.order_by (Sql.desc_nulls_first key) l).
Proof.
  unfold Sql.order_by. apply sort_sorted.
  - auto.
  - intros x y. unfold Sql.desc_nulls_first.
    destruct (key x), (key y); try discriminate; try reflexivity.
    rewrite Z.leb_gt, Z.leb_le. lia.
  - intros x y z. unfold Sql.desc_nulls_first.
    destruct (key x), (key y), (key z); try discriminate; try reflexivity.
    rewrite !Z.leb_le. lia.
Qed.

Example recent_alerts_sample :
  map (fun r => (Db.ra_id r, Db.ra_ticker r, Db.ra_email r))
      (Db.recent_alerts sample_alerts sample_issuers sample_subscriptions
                        sample_now)
  = [ (5, Some "AAPL"%string, Some "a@example.com"%string);
      (3, Some "MSFT"%string, None);
      (2, Some "AAPL"%string, Some "a@example.com"%string) ].
Proof. reflexivity. Qed.

(** C8.  Every row of [recent_alerts] carries [id], [alert_type], [message],
    [score_change] and [triggered_at] of a row of [alert_history] whose
    [triggered_at] is not NULL and at or after [now()] minus 24 hours (the
    only bound on it: there is none from above), [name] and [ticker] of the
    issuer row that its [issuer_id] names, and [email] and [webhook_url] of
    the subscription row that its [subscription_id] names when there is one
    (no subscription matches otherwise, and both are NULL); the rows come
    from the most recent [triggered_at] to the oldest. *)
Theorem recent_alerts_spec (alert_history : list AlertHistory.row)
    (issuer : list Issuer.row)
    (alert_subscription : list AlertSubscription.row) (now : Sql.timestamp) :
  let view := Db.recent_alerts alert_history issuer alert_subscription now in
  Forall
    (fun r =>
       exists ah i asub t,
         In ah alert_history
         /\ Db.ra_id r = AlertHistory.id ah
         /\ Db.ra_alert_type r = AlertHistory.alert_type ah
         /\ Db.ra_message r = AlertHistory.message ah
         /\ Db.ra_score_change r = AlertHistory.score_change ah
         /\ Db.ra_triggered_at r = AlertHistory.triggered_at ah
         /\ Db.ra_triggered_at r = Some t
         /\ now - Sql.hours 24 <= t
         /\ In i issuer
         /\ AlertHistory.issuer_id ah = Some (Issuer.id i)
         /\ Db.ra_issuer_name r = Issuer.name i
         /\ Db.ra_ticker r = Issuer.ticker i
         /\ match asub with
            | Some sub =>
                In sub alert_subscription
                /\ AlertHistory.subscription_id ah
                   = Some (AlertSubscription.id sub)
                /\ Db.ra_email r = AlertSubscription.email sub
                /\ Db.ra_webhook_url r = AlertSubscription.webhook_url sub
            | None =>
                (forall sub, In sub alert_subscription ->
                             AlertHistory.subscription_id ah
                             <> Some (AlertSubscription.id sub))
                /\ Db.ra_email r = None
                /\ Db.ra_webhook_url r = None
            end)
    view
  /\ StronglySorted Db.newest_first view.
Proof.
  cbv zeta. unfold Db.recent_alerts.
  set (joined := Sql.left_join Db.on_subscription
                   (Sql.inner_join Db.on_issuer alert_history issuer)
                   alert_subscription).
  set (recent := fun j => Sql.ts_ge (Db.joined_triggered_at j)
                                    (now - Sql.hours 24)).
  assert (Hrecent : forall j,
             In j (Sql.order_by (Sql.desc_nulls_first Db.joined_triggered_at)
                                (filter recent joined)) ->
             In j joined /\ recent j = true).
  { intros j Hj. unfold Sql.order_by in Hj. apply sort_In in Hj.
    now apply filter_In in Hj. }
  split.
  - apply Forall_forall. intros r Hr.
    apply in_map_iff in Hr. destruct Hr as [[[ah i] asub] [<- Hj]].
    apply Hrecent in Hj. destruct Hj as [Hj Ht].
    apply left_join_In in Hj. destruct Hj as [Hl Hsub].
    apply inner_join_In in Hl. destruct Hl as [Hah [Hi Hon]].
    unfold recent, Db.joined_triggered_at, Sql.ts_ge in Ht. simpl in Ht.
    destruct (AlertHistory.triggered_at ah) as [t|] eqn:Et; [|discriminate].
    apply Z.leb_le in Ht.
    unfold Db.on_issuer in Hon. apply int_eq_true in Hon.
    exists ah, i, asub, t. simpl. repeat split; try assumption.
    destruct asub as [sub|].
    + destruct Hsub as [Hs Hon']. split; [exact Hs|].
      split; [|split; reflexivity].
      unfold Db.on_subscription in Hon'. now apply int_eq_true in Hon'.
    + split; [|split; reflexivity].
      intros sub Hs E. specialize (Hsub sub Hs).
      unfold Db.on_subscription in Hsub. simpl in Hsub.
      apply int_eq_true in E. congruence.
  - apply StronglySorted_map.
    apply (StronglySorted_weaken
             (fun x y =>
                Sql.desc_nulls_first Db.joined_triggered_at x y = true
                /\ recent x = true /\ recent y = true)).
    2:{ apply StronglySorted_restrict.
        - apply order_by_desc_nulls_first_sorted.
        - apply Forall_forall. intros j Hj. now apply Hrecent in Hj. }
    intros [[ah1 i1] s1] [[ah2 i2] s2] [H [H1 H2]].
    unfold Db.newest_first, recent, Db.joined_triggered_at, Sql.ts_ge,
      Sql.desc_nulls_first in *.
    simpl in *.
    destruct (AlertHistory.triggered_at ah1); [|discriminate].
    destruct (AlertHistory.triggered_at ah2); [|discriminate].
    now apply Z.leb_le.
Qed.

(** An alert that is dated 500 hours after [now()] is in the view: its
    [triggered_at] is not within the trailing 24 hours. *)
Lemma recent_alerts_shows_future_alert :
  exists r t,
    In r (Db.recent_alerts future_alerts sample_issuers sample_subscriptions
                           sample_now)
    /\ Db.ra_id r = 6
    /\ Db.ra_triggered_at r = Some t
    /\ t = sample_now + Sql.hours 500
    /\ sample_now < t.
Proof.
  exists (Db.mk_recent 6 "score_change" None (Some 6.0%float)
                       (Some (sample_now + Sql.hours 500))
                       "Apple Inc" (Some "AAPL"%string)
                       (Some "a@example.com"%string) None),
         (sample_now + Sql.hours 500).
  split; [vm_compute; left; reflexivity|].
  split; [reflexivity|]. split; [reflexivity|]. split; [reflexivity|].
  vm_compute. reflexivity.
Qed.

(* ================================================================== *)
(** ** The seeded scores *)

Lemma insert_into_score_In (now : Sql.timestamp)
    (vs : list Seed.values_row) (next_id : Z) (s : Score.row) :
  In s (Seed.insert_into_score now next_id vs) ->
  exists id v, In v vs /\ s = Seed.score_row now id v.
Proof.
  revert next_id. induction vs as [|v vs IH]; intros next_id H; simpl in H.
  - contradiction.
  - destruct H as [<- | H].
    + exists next_id, v. split; [now left | reflexivity].
    + destruct (IH _ H) as [id [v' [Hv E]]].
      exists id, v'. split; [now right | exact E].
Qed.

Lemma insert_into_score_complete (now : Sql.timestamp)
    (vs : list Seed.values_row) (next_id : Z) (v : Seed.values_row) :
  In v vs -> exists id, In (Seed.score_row now id v)
                           (Seed.insert_into_score now next_id vs).
Proof.
  revert next_id. induction vs as [|v' vs IH]; intros next_id H; simpl in *.
  - contradiction.
  - destruct H as [-> | H].
    + exists next_id. now left.
    + destruct (IH (next_id + 1) H) as [id Hid]. exists id. now right.
Qed.

(** A check that all tuples of the [VALUES] list pass holds of every seeded
    row. *)
Lemma seed_forall (check : Seed.values_row -> bool) (P : Score.row -> Prop)
    (now : Sql.timestamp) (next_id : Z) :
  (forall id v, check v = true -> P (Seed.score_row now id v)) ->
  forallb check Seed.values = true ->
  forall s, In s (Seed.score now next_id) -> P s.
Proof.
  intros HP Hall s Hs. unfold Seed.score in Hs.
  apply insert_into_score_In in Hs. destruct Hs as [id [v [Hv ->]]].
  apply HP. rewrite forallb_forall in Hall. now apply Hall.
Qed.

Example seed_reproduces_within_one_ulp :
  (Composer.composite 61.2 12.9 8.6 5.4 - 88.1)%float
  = 1.4210854715202004e-14%float.
Proof. reflexivity. Qed.

(** C3.  For every seeded Score row, the four stored pillars, summed and
    clipped to [[0, 100]], reproduce the stored score within 1e-6.  The
    pillars 60.5, 12.8, 8.5, 5.4 give 87.2 and the pillars 61.8, 13.1, 8.7,
    4.9 give 88.5, and the seed stores these two rows with these scores. *)
Theorem seed_scores_reproduce (now : Sql.timestamp) (next_id : Z) :
  Forall (fun s => Composer.reproduces s = true) (Seed.score now next_id)
  /\ Composer.composite 60.5 12.8 8.5 5.4 = 87.2%float
  /\ Composer.composite 61.8 13.1 8.7 4.9 = 88.5%float
  /\ (exists s, In s (Seed.score now next_id)
                /\ Score.base s = Some 60.5%float
                /\ Score.market s = Some 12.8%float
                /\ Score.event_delta s = Some 8.5%float
                /\ Score.macro_adj s = Some 5.4%float
                /\ Score.score s = 87.2%float)
  /\ (exists s, In s (Seed.score now next_id)
                /\ Score.base s = Some 61.8%float
                /\ Score.market s = Some 13.1%float
                /\ Score.event_delta s = Some 8.7%float
                /\ Score.macro_adj s = Some 4.9%float
                /\ Score.score s = 88.5%float).
Proof.
  split; [|split; [reflexivity | split; [reflexivity | split]]].
  - apply Forall_forall.
    apply (seed_forall
             (fun v => Composer.within_tolerance
                         (Composer.composite
                            (Seed.v_base v) (Seed.v_market v)
                            (Seed.v_event_delta v) (Seed.v_macro_adj v))
                         (Seed.v_score v))).
    + intros id v Hv. exact Hv.
    + vm_compute. reflexivity.
  - destruct (insert_into_score_complete now Seed.values next_id
                (Seed.V 1 48 87.2 "AA" 60.5 12.8 8.5 5.4)) as [id Hid].
    { simpl. left. reflexivity. }
    eexists. split; [exact Hid|]. repeat split.
  - destruct (insert_into_score_complete now Seed.values next_id
                (Seed.V 2 48 88.5 "AA" 61.8 13.1 8.7 4.9)) as [id Hid].
    { simpl. right. right. left. reflexivity. }
    eexists. split; [exact Hid|]. repeat split.
Qed.

(* ================================================================== *)
(** ** Buckets *)

Example bucket_of_score_at_breakpoints :
  map Composer.bucket_of_score
      [100; 90; 89.99; 80; 79.99; 70; 60; 50; 40; 39.99; 0]%float
  = ["AAA"; "AAA"; "AA"; "AA"; "A"; "A"; "BBB"; "BB"; "B"; "CCC"; "CCC"]%string.
Proof. reflexivity. Qed.

(** The seed stores 90.1 as AA where the default breakpoints give AAA, 82.1
    as A where they give AA, and 71.4 as BBB where they give A. *)
Lemma seed_bucket_not_default :
  exists s,
    In s (Seed.score 0 1)
    /\ Score.score s = 90.1%float
    /\ Score.bucket s = "AA"%string
    /\ Composer.bucket_of_score (Score.score s) = "AAA"%string
    /\ Score.bucket s <> Composer.bucket_of_score (Score.score s).
Proof.
  exists (Seed.score_row 0 22 (Seed.V 11 24 90.1 "AA" 63.2 13.3 8.7 4.9)).
  split; [vm_compute; tauto|].
  repeat split. vm_compute. discriminate.
Qed.

(** C6.  The seeded Score rows carry AA for scores from 85.3 to 92.1, A for
    scores from 75.8 to 83.5 and BBB for scores from 67.2 to 74.7.  On these
    rows the bucket is a function of the score that preserves the order:
    rows with equal scores carry the same bucket, and the bucket of a row
    never ranks below the bucket of a row with a lower or equal score.  The
    default breakpoints give every score one of the seven buckets, each
    bucket holding the scores from its inclusive lower bound up to the lower
    bound of the next bucket, so that the ranges are contiguous and leave no
    gap. *)
Theorem seed_bucket_monotone (now : Sql.timestamp) (next_id : Z) :
  Forall
    (fun s =>
       let within lo hi :=
         PrimFloat.leb lo (Score.score s) && PrimFloat.leb (Score.score s) hi
         = true in
       (Score.bucket s = "AA"%string /\ within 85.3%float 92.1%float)
       \/ (Score.bucket s = "A"%string /\ within 75.8%float 83.5%float)
       \/ (Score.bucket s = "BBB"%string /\ within 67.2%float 74.7%float))
    (Seed.score now next_id)
  /\ (forall s1 s2,
      In s1 (Seed.score now next_id) -> In s2 (Seed.score now next_id) ->
      (PrimFloat.eqb (Score.score s1) (Score.score s2) = true ->
       Score.bucket s1 = Score.bucket s2)
      /\ (PrimFloat.leb (Score.score s1) (Score.score s2) = true ->
          Composer.rank_le (Score.bucket s1) (Score.bucket s2) = true))
  /\ (forall x : float,
         let b := Composer.bucket_of_score x in
         let ge lower := PrimFloat.leb lower x in
         (b = "AAA"%string <-> ge 90%float = true)
         /\ (b = "AA"%string <-> ge 90%float = false /\ ge 80%float = true)
         /\ (b = "A"%string <->
             ge 90%float = false /\ ge 80%float = false /\ ge 70%float = true)
         /\ (b = "BBB"%string <->
             ge 90%float = false /\ ge 80%float = false
             /\ ge 70%float = false /\ ge 60%float = true)
         /\ (b = "BB"%string <->
             ge 90%float = false /\ ge 80%float = false
             /\ ge 70%float = false /\ ge 60%float = false
             /\ ge 50%float = true)
         /\ (b = "B"%string <->
             ge 90%float = false /\ ge 80%float = false
             /\ ge 70%float = false /\ ge 60%float = false
             /\ ge 50%float = false /\ ge 40%float = true)
         /\ (b = "CCC"%string <->
             ge 90%float = false /\ ge 80%float = false
             /\ ge 70%float = false /\ ge 60%float = false
             /\ ge 50%float = false /\ ge 40%float = false)).
Proof.
  split; [|split].
  - apply Forall_forall.
    apply (seed_forall
             (fun v =>
                let within lo hi :=
                  PrimFloat.leb lo (Seed.v_score v)
                  && PrimFloat.leb (Seed.v_score v) hi in
                (String.eqb (Seed.v_bucket v) "AA" && within 85.3 92.1)
                || (String.eqb (Seed.v_bucket v) "A" && within 75.8 83.5)
                || (String.eqb (Seed.v_bucket v) "BBB" && within 67.2 74.7))
             %float).
    2:{ vm_compute. reflexivity. }
    intros id v Hv. cbv zeta in *. simpl.
    apply orb_prop in Hv. destruct Hv as [Hv | Hv];
      [apply orb_prop in Hv; destruct Hv as [Hv | Hv]|];
      apply andb_prop in Hv; destruct Hv as [Hb Hw];
      apply String.eqb_eq in Hb; tauto.
  - intros s1 s2 H1. revert s2.
    pattern s1. revert s1 H1.
    apply (seed_forall
             (fun v1 =>
                forallb
                  (fun v2 =>
                     (negb (PrimFloat.eqb (Seed.v_score v1) (Seed.v_score v2))
                      || String.eqb (Seed.v_bucket v1) (Seed.v_bucket v2))
                     && (negb (PrimFloat.leb (Seed.v_score v1)
                                             (Seed.v_score v2))
                         || Composer.rank_le (Seed.v_bucket v1)
                                             (Seed.v_bucket v2)))
                  Seed.values)).
    2:{ vm_compute. reflexivity. }
    intros id1 v1 Hv1 s2 H2.
    unfold Seed.score in H2. apply insert_into_score_In in H2.
    destruct H2 as [id2 [v2 [Hv2 ->]]].
    rewrite forallb_forall in Hv1. specialize (Hv1 v2 Hv2).
    apply andb_prop in Hv1. destruct Hv1 as [Ha Hb]. simpl.
    split; intros H; [rewrite H in Ha | rewrite H in Hb]; simpl in *.
    + now apply String.eqb_eq.
    + exact Hb.
  - intros x. cbv zeta.
    unfold Composer.bucket_of_score, Composer.default_breakpoints,
      Composer.bucket_by.
    destruct (PrimFloat.leb 90 x), (PrimFloat.leb 80 x), (PrimFloat.leb 70 x),
      (PrimFloat.leb 60 x), (PrimFloat.leb 50 x), (PrimFloat.leb 40 x);
      repeat split; intros; try discriminate; try tauto;
      repeat match goal with H : _ /\ _ |- _ => destruct H end;
      try discriminate; try reflexivity.
Qed.

Lemma seed_bucket_monotone_witness :
  Composer.rank_le "A" "AA" = true.
Proof.
  apply (proj2 (proj1 (proj2 (seed_bucket_monotone 0 1))
                  (Seed.score_row 0 5 (Seed.V 3 48 82.1 "A" 58.3 11.2 7.8 4.8))
                  (Seed.score_row 0 22
                     (Seed.V 11 24 90.1 "AA" 63.2 13.3 8.7 4.9))
                  ltac:(vm_compute; tauto) ltac:(vm_compute; tauto))).
  reflexivity.
Defined.

(* ================================================================== *)
(** ** The default model metadata *)

Example double_of_decimal_weights :
  map double_of_decimal [0.55; 0.25; 0.12; 0.08]%Q
  = [0.55; 0.25; 0.12; 0.08]%float.
Proof. reflexivity. Qed.

(** C7.  The default row of [model_metadata] carries the pillar weights
    base 0.55, market 0.25, event 0.12 and macro 0.08, the same values that
    [setup_env.sh] configures; the four weights sum to exactly 1, as the
    decimals that [jsonb] keeps and also when they are added as
    [DOUBLE PRECISION] values. *)
Theorem default_scoring_weights_sum_to_one (now : Sql.timestamp) :
  let w := ModelMetadata.scoring_weight (ModelMetadata.default now) in
  w "base"%string = Some 0.55%Q
  /\ w "market"%string = Some 0.25%Q
  /\ w "event"%string = Some 0.12%Q
  /\ w "macro"%string = Some 0.08%Q
  /\ w "base"%string = Some Env.SCORING_WEIGHTS_BASE
  /\ w "market"%string = Some Env.SCORING_WEIGHTS_MARKET
  /\ w "event"%string = Some Env.SCORING_WEIGHTS_EVENT
  /\ w "macro"%string = Some Env.SCORING_WEIGHTS_MACRO
  /\ (0.55 + 0.25 + 0.12 + 0.08 == 1)%Q
  /\ (double_of_decimal 0.55 + double_of_decimal 0.25
      + double_of_decimal 0.12 + double_of_decimal 0.08)%float
     = 1%float.
Proof.
  cbv zeta. repeat split; reflexivity.
Qed.

(* ================================================================== *)
(** ** Event decay *)

Lemma default_half_life_hours_value : Decay.default_half_life_hours = 168%R.
Proof.
  unfold Decay.default_half_life_hours, Env.EVENT_HALF_LIFE_DAYS.
  simpl. reflexivity.
Qed.

Lemma elapsed_hours_at_ingestion (e : Event.row) :
  Decay.elapsed_hours e (Event.ts e) = 0%R.
Proof.
  unfold Decay.elapsed_hours. rewrite Z.sub_diag. simpl.
  unfold Rdiv. apply Rmult_0_l.
Qed.

Lemma elapsed_hours_increasing (e : Event.row) (t1 t2 : Sql.timestamp) :
  t1 < t2 -> (Decay.elapsed_hours e t1 < Decay.elapsed_hours e t2)%R.
Proof.
  intros H. unfold Decay.elapsed_hours, Rdiv.
  apply Rmult_lt_compat_r.
  - apply Rinv_0_lt_compat. apply IZR_lt. reflexivity.
  - apply IZR_lt. lia.
Qed.

Lemma ln_2_pos : (0 < ln 2)%R.
Proof.
  rewrite <- ln_1. apply ln_increasing; lra.
Qed.

(** Whatever the positive half-life, the factor strictly falls with time. *)
Lemma decay_factor_with_decreasing (half_life_hours : R) (e : Event.row)
    (t1 t2 : Sql.timestamp) :
  (0 < half_life_hours)%R -> t1 < t2 ->
  (Decay.decay_factor_with half_life_hours e t2
   < Decay.decay_factor_with half_life_hours e t1)%R.
Proof.
  intros Hh Ht. unfold Decay.decay_factor_with.
  apply exp_increasing.
  pose proof (elapsed_hours_increasing e t1 t2 Ht) as He.
  pose proof ln_2_pos as Hl.
  unfold Rdiv. apply Rmult_lt_compat_r.
  - now apply Rinv_0_lt_compat.
  - rewrite <- !Ropp_mult_distr_l. apply Ropp_lt_contravar.
    now apply Rmult_lt_compat_l.
Qed.

(** One half-life after ingestion the factor is one half. *)
Lemma decay_factor_after_half_life (e : Event.row) :
  Decay.decay_factor e (Event.ts e + Sql.hours 168) = (1 / 2)%R.
Proof.
  unfold Decay.decay_factor, Decay.decay_factor_with.
  rewrite default_half_life_hours_value.
  unfold Decay.elapsed_hours, Sql.hours.
  replace (Event.ts e + Sql.USECS_PER_HOUR * 168 - Event.ts e)
    with (Sql.USECS_PER_HOUR * 168) by lia.
  rewrite mult_IZR.
  replace (- ln 2 * (IZR Sql.USECS_PER_HOUR * 168 / IZR Sql.USECS_PER_HOUR)
           / 168)%R with (- ln 2)%R.
  - rewrite exp_Ropp, exp_ln; lra.
  - unfold Sql.USECS_PER_HOUR. field.
Qed.

(** C4.  With the default half-life of 7 days x 24 hours,
    [decay_factor(event, now)] is [exp(-ln 2 * elapsed_hours / 168)]; it is 1
    at ingestion; it never increases as time passes; and it is always
    positive. *)
Theorem decay_factor_spec (e : Event.row) :
  (forall now,
      Decay.decay_factor e now
      = exp (- ln 2 * Decay.elapsed_hours e now / (7 * 24)))%R
  /\ Decay.decay_factor e (Event.ts e) = 1%R
  /\ (forall t1 t2,
         t1 < t2 ->
         (Decay.decay_factor e t2 <= Decay.decay_factor e t1)%R)
  /\ (forall now, (0 < Decay.decay_factor e now)%R).
Proof.
  unfold Decay.decay_factor. repeat split.
  - intros now. unfold Decay.decay_factor_with.
    rewrite default_half_life_hours_value. f_equal. f_equal. lra.
  - unfold Decay.decay_factor_with. rewrite elapsed_hours_at_ingestion.
    unfold Rdiv. rewrite Rmult_0_r, Rmult_0_l. apply exp_0.
  - intros t1 t2 Ht. apply Rlt_le. apply decay_factor_with_decreasing.
    + rewrite default_half_life_hours_value. lra.
    + exact Ht.
  - intros now. apply exp_pos.
Qed.

Lemma decay_factor_spec_witness :
  (Decay.decay_factor earnings_event (Sql.hours 268)
   <= Decay.decay_factor earnings_event (Sql.hours 100))%R.
Proof.
  apply (proj1 (proj2 (proj2 (decay_factor_spec earnings_event)))).
  reflexivity.
Defined.

(* ================================================================== *)
(** ** Alert evaluation *)

Example one_alert_for_two_moves :
  map AlertHistory.score_change
      (AlertEvaluator.evaluate 24
         (AlertEvaluator.evaluate 24 [] sample_subscription first_move)
         sample_subscription second_move)
  = [Some 6.0%float].
Proof. reflexivity. Qed.

Example cycle_reaches_active_subscriptions_of_issuer :
  map AlertHistory.subscription_id
      (AlertEvaluator.evaluate_cycle 24 []
         [inactive_subscription; other_issuer_subscription;
          sample_subscription]
         first_move)
  = [Some 10].
Proof. reflexivity. Qed.

Lemma existsb_false_filter {A : Type} (f : A -> bool) (l : list A) :
  existsb f l = false -> filter f l = [].
Proof.
  intros H. apply filter_none. intros x Hx.
  destruct (f x) eqn:E; [|reflexivity].
  assert (Ht : existsb f l = true) by (apply existsb_exists; eauto).
  congruence.
Qed.

Lemma in_dedupe_window_later (window_hours : Z) (t1 t2 : Sql.timestamp)
    (sub : AlertSubscription.row) (a : AlertHistory.row) :
  t1 <= t2 ->
  AlertEvaluator.in_dedupe_window window_hours t1 sub a = false ->
  AlertEvaluator.in_dedupe_window window_hours t2 sub a = false.
Proof.
  unfold AlertEvaluator.in_dedupe_window, Sql.ts_ge. intros Ht H.
  destruct (Sql.int_eq _ _); [|reflexivity]. simpl in *.
  destruct (AlertHistory.triggered_at a) as [t|]; [|reflexivity].
  apply Z.leb_gt in H. apply Z.leb_gt. lia.
Qed.

Lemma new_alert_in_window (window_hours : Z)
    (alert_history : list AlertHistory.row) (sub : AlertSubscription.row)
    (c : AlertEvaluator.cycle) (now : Sql.timestamp) :
  now - Sql.hours window_hours <= AlertEvaluator.c_now c ->
  AlertEvaluator.in_dedupe_window window_hours now sub
    (AlertEvaluator.new_alert alert_history sub c) = true.
Proof.
  intros H. unfold AlertEvaluator.in_dedupe_window, AlertEvaluator.new_alert.
  simpl. rewrite Z.eqb_refl. simpl. now apply Z.leb_le.
Qed.

(** A cycle leaves the history as it is or appends one row. *)
Lemma evaluate_cases (window_hours : Z)
    (alert_history : list AlertHistory.row) (sub : AlertSubscription.row)
    (c : AlertEvaluator.cycle) :
  AlertEvaluator.evaluate window_hours alert_history sub c = alert_history
  \/ AlertEvaluator.evaluate window_hours alert_history sub c
     = alert_history ++ [AlertEvaluator.new_alert alert_history sub c].
Proof.
  unfold AlertEvaluator.evaluate.
  destruct (AlertEvaluator.applies sub c); [|now left].
  destruct (AlertEvaluator.qualifies sub c); [|now left].
  destruct (existsb _ alert_history); [now left | now right].
Qed.

(** Two moves inside one window never write more than one row, whatever the
    history holds. *)
Lemma at_most_one_alert_per_window (window_hours : Z)
    (alert_history : list AlertHistory.row) (sub : AlertSubscription.row)
    (c1 c2 : AlertEvaluator.cycle) :
  AlertEvaluator.c_now c2 - Sql.hours window_hours <= AlertEvaluator.c_now c1 ->
  (List.length (AlertEvaluator.evaluate window_hours
                  (AlertEvaluator.evaluate window_hours alert_history sub c1)
                  sub c2)
   <= S (List.length alert_history))%nat.
Proof.
  intros Hw.
  destruct (evaluate_cases window_hours alert_history sub c1) as [-> | ->].
  - destruct (evaluate_cases window_hours alert_history sub c2) as [-> | ->].
    + lia.
    + rewrite length_app. simpl. lia.
  - unfold AlertEvaluator.evaluate.
    destruct (AlertEvaluator.applies sub c2);
      [|rewrite length_app; simpl; lia].
    destruct (AlertEvaluator.qualifies sub c2);
      [|rewrite length_app; simpl; lia].
    rewrite existsb_app. simpl.
    rewrite (new_alert_in_window _ _ _ _ _ Hw), orb_true_r.
    rewrite length_app. simpl. lia.
Qed.

(** A cycle writes at most one row for each subscription. *)
Lemma evaluate_cycle_length (window_hours : Z)
    (alert_subscription : list AlertSubscription.row)
    (alert_history : list AlertHistory.row) (c : AlertEvaluator.cycle) :
  (List.length (AlertEvaluator.evaluate_cycle window_hours alert_history
                  alert_subscription c)
   <= List.length alert_history + List.length alert_subscription)%nat.
Proof.
  unfold AlertEvaluator.evaluate_cycle. revert alert_history.
  induction alert_subscription as [|sub subs IH]; intros h; simpl.
  - lia.
  - specialize (IH (AlertEvaluator.evaluate window_hours h sub c)).
    destruct (evaluate_cases window_hours h sub c) as [E | E];
      rewrite E in IH |- *; [|rewrite length_app in IH; simpl in IH]; lia.
Qed.

Lemma StronglySorted_snoc {A : Type} (R : A -> A -> Prop) (l : list A)
    (x : A) :
  StronglySorted R l -> Forall (fun a => R a x) l ->
  StronglySorted R (l ++ [x]).
Proof.
  induction 1 as [|y l Hs IH Hy]; intros Hx; simpl.
  - constructor; constructor.
  - inversion Hx as [|? ? Hyx Hlx]; subst.
    constructor; [now apply IH|].
    apply Forall_app. split; [exact Hy | now constructor].
Qed.

Lemma StronglySorted_split {A : Type} (R : A -> A -> Prop)
    (l1 l2 : list A) (a : A) :
  StronglySorted R (l1 ++ a :: l2) -> Forall (R a) l2.
Proof.
  induction l1 as [|x l1 IH]; simpl; intros H.
  - now apply StronglySorted_inv in H.
  - apply StronglySorted_inv in H. now apply IH.
Qed.

(** One cycle keeps the history well spaced. *)
Lemma evaluate_well_spaced (window_hours : Z) (last : Sql.timestamp)
    (alert_history : list AlertHistory.row) (sub : AlertSubscription.row)
    (c : AlertEvaluator.cycle) :
  AlertEvaluator.well_spaced window_hours last alert_history ->
  last <= AlertEvaluator.c_now c ->
  AlertEvaluator.well_spaced window_hours (AlertEvaluator.c_now c)
    (AlertEvaluator.evaluate window_hours alert_history sub c).
Proof.
  intros [Htimes Hapart] Hlast.
  assert (Htimes' :
            Forall (fun a => exists t, AlertHistory.triggered_at a = Some t
                                       /\ t <= AlertEvaluator.c_now c)
                   alert_history).
  { eapply Forall_impl; [|exact Htimes].
    intros a [t [E Ht]]. exists t. split; [exact E | lia]. }
  unfold AlertEvaluator.evaluate.
  destruct (AlertEvaluator.applies sub c); [|now split].
  destruct (AlertEvaluator.qualifies sub c); [|now split].
  destruct (existsb _ alert_history) eqn:Ex; [now split|].
  split.
  - apply Forall_app. split; [exact Htimes'|].
    constructor; [|constructor].
    exists (AlertEvaluator.c_now c). split; [reflexivity | lia].
  - apply StronglySorted_snoc; [exact Hapart|].
    rewrite Forall_forall in *. intros a Ha.
    destruct (Htimes a Ha) as [t [Et _]].
    unfold AlertEvaluator.apart. simpl. intros Hid. rewrite Et.
    assert (Hout : AlertEvaluator.in_dedupe_window window_hours
                     (AlertEvaluator.c_now c) sub a = false).
    { destruct (AlertEvaluator.in_dedupe_window window_hours
                  (AlertEvaluator.c_now c) sub a) eqn:E; [|reflexivity].
      assert (Ht : existsb (AlertEvaluator.in_dedupe_window window_hours
                              (AlertEvaluator.c_now c) sub) alert_history
                   = true) by (apply existsb_exists; eauto).
      congruence. }
    unfold AlertEvaluator.in_dedupe_window in Hout.
    rewrite Hid, Et in Hout. simpl in Hout.
    rewrite Z.eqb_refl in Hout. simpl in Hout.
    now apply Z.leb_gt in Hout.
Qed.

Lemma run_well_spaced (window_hours : Z)
    (steps : list (AlertSubscription.row * AlertEvaluator.cycle))
    (start : Sql.timestamp) (alert_history : list AlertHistory.row) :
  AlertEvaluator.well_spaced window_hours start alert_history ->
  AlertEvaluator.in_time_order start steps ->
  exists last,
    AlertEvaluator.well_spaced window_hours last
      (AlertEvaluator.run window_hours alert_history steps).
Proof.
  revert start alert_history.
  induction steps as [|[sub c] rest IH]; intros start h Hh Ho; simpl in *.
  - now exists start.
  - destruct Ho as [Hc Hrest].
    apply (IH (AlertEvaluator.c_now c)); [|exact Hrest].
    now apply (evaluate_well_spaced _ start).
Qed.

(** In the history that any run of cycles in the order of time builds from
    the empty one, two alerts of one subscription lie more than a dedupe
    window apart: no window holds two of them. *)
Lemma one_alert_per_subscription_and_window (window_hours : Z)
    (start : Sql.timestamp)
    (steps : list (AlertSubscription.row * AlertEvaluator.cycle))
    (l1 l2 l3 : list AlertHistory.row) (a b : AlertHistory.row) :
  AlertEvaluator.in_time_order start steps ->
  AlertEvaluator.run window_hours [] steps = l1 ++ a :: l2 ++ b :: l3 ->
  AlertEvaluator.apart window_hours a b.
Proof.
  intros Ho E.
  destruct (run_well_spaced window_hours steps start []) as [last [_ Hs]].
  - split; constructor.
  - exact Ho.
  - rewrite E in Hs. apply StronglySorted_split in Hs.
    rewrite Forall_forall in Hs. apply Hs.
    apply in_or_app. right. now left.
Qed.

(** A subscription that is active and on the issuer of the cycle is one the
    cycle reaches. *)
Lemma applies_active_on_issuer (sub : AlertSubscription.row)
    (c : AlertEvaluator.cycle) :
  AlertSubscription.is_active sub = Some true ->
  AlertSubscription.issuer_id sub = Some (AlertEvaluator.c_issuer_id c) ->
  AlertEvaluator.applies sub c = true.
Proof.
  intros Ha Hi. unfold AlertEvaluator.applies. rewrite Ha.
  now apply int_eq_true.
Qed.

(** A subscription that is not active, or is on another issuer, gets no
    alert, whatever the change. *)
Lemma evaluate_unreached (window_hours : Z)
    (alert_history : list AlertHistory.row) (sub : AlertSubscription.row)
    (c : AlertEvaluator.cycle) :
  AlertSubscription.is_active sub <> Some true
  \/ AlertSubscription.issuer_id sub <> Some (AlertEvaluator.c_issuer_id c) ->
  AlertEvaluator.evaluate window_hours alert_history sub c = alert_history.
Proof.
  intros H. unfold AlertEvaluator.evaluate.
  destruct (AlertEvaluator.applies sub c) eqn:E; [|reflexivity].
  exfalso. unfold AlertEvaluator.applies in E.
  destruct (AlertSubscription.is_active sub) as [[|]|]; try discriminate.
  apply int_eq_true in E. destruct H as [H | H]; [now apply H | now apply H].
Qed.

(** C2.  For an active subscription on the issuer of the cycles: when two
    scoring cycles that lie inside one dedupe window both produce a change
    of at least the threshold of the subscription, and the history holds no
    alert of the subscription in the window when the first cycle runs, the
    two cycles together create exactly one AlertHistory row for the
    subscription: the first cycle writes it, the second cycle is
    suppressed, and the window of the second cycle holds that single row. *)
Theorem second_qualifying_move_is_suppressed (window_hours : Z)
    (alert_history : list AlertHistory.row) (sub : AlertSubscription.row)
    (c1 c2 : AlertEvaluator.cycle) :
  AlertSubscription.is_active sub = Some true ->
  AlertSubscription.issuer_id sub = Some (AlertEvaluator.c_issuer_id c1) ->
  AlertEvaluator.c_issuer_id c2 = AlertEvaluator.c_issuer_id c1 ->
  AlertEvaluator.qualifies sub c1 = true ->
  AlertEvaluator.qualifies sub c2 = true ->
  AlertEvaluator.c_now c1 <= AlertEvaluator.c_now c2 ->
  AlertEvaluator.c_now c2 - Sql.hours window_hours <= AlertEvaluator.c_now c1 ->
  existsb (AlertEvaluator.in_dedupe_window window_hours
             (AlertEvaluator.c_now c1) sub) alert_history = false ->
  let after_first := AlertEvaluator.evaluate window_hours alert_history sub c1 in
  let after_second := AlertEvaluator.evaluate window_hours after_first sub c2 in
  let created := AlertEvaluator.new_alert alert_history sub c1 in
  after_first = alert_history ++ [created]
  /\ after_second = after_first
  /\ filter (AlertEvaluator.in_dedupe_window window_hours
               (AlertEvaluator.c_now c2) sub) after_second
     = [created]
  /\ List.length after_second = S (List.length alert_history)
  /\ AlertHistory.subscription_id created = Some (AlertSubscription.id sub)
  /\ AlertHistory.issuer_id created = Some (AlertEvaluator.c_issuer_id c1)
  /\ AlertHistory.score_change created = Some (AlertEvaluator.c_score_change c1)
  /\ AlertHistory.triggered_at created = Some (AlertEvaluator.c_now c1).
Proof.
  intros Hact Hiss Hsame Hq1 Hq2 Hle Hw Hfresh. cbv zeta.
  assert (Ha1 : AlertEvaluator.applies sub c1 = true)
    by now apply applies_active_on_issuer.
  assert (Ha2 : AlertEvaluator.applies sub c2 = true)
    by (apply applies_active_on_issuer; [exact Hact | now rewrite Hsame]).
  assert (E1 : AlertEvaluator.evaluate window_hours alert_history sub c1
               = alert_history ++ [AlertEvaluator.new_alert alert_history sub c1]).
  { unfold AlertEvaluator.evaluate. rewrite Ha1, Hq1, Hfresh. reflexivity. }
  assert (E2 : AlertEvaluator.evaluate window_hours
                 (alert_history ++ [AlertEvaluator.new_alert alert_history sub c1])
                 sub c2
               = alert_history ++ [AlertEvaluator.new_alert alert_history sub c1]).
  { unfold AlertEvaluator.evaluate. rewrite Ha2, Hq2, existsb_app. simpl.
    rewrite (new_alert_in_window _ _ _ _ _ Hw), orb_true_r. reflexivity. }
  rewrite E1, E2. repeat split.
  2:{ rewrite length_app. simpl. lia. }
  rewrite filter_app. simpl.
  rewrite (new_alert_in_window _ _ _ _ _ Hw).
  rewrite filter_none; [reflexivity|].
  intros a Ha. apply (in_dedupe_window_later _ _ _ _ _ Hle).
  destruct (AlertEvaluator.in_dedupe_window window_hours
              (AlertEvaluator.c_now c1) sub a) eqn:E; [|reflexivity].
  assert (Ht : existsb (AlertEvaluator.in_dedupe_window window_hours
                          (AlertEvaluator.c_now c1) sub) alert_history = true)
    by (apply existsb_exists; eauto).
  congruence.
Qed.

Lemma second_qualifying_move_is_suppressed_witness :
  let created := AlertEvaluator.new_alert [] sample_subscription first_move in
  AlertEvaluator.evaluate 24 [] sample_subscription first_move = [created]
  /\ AlertEvaluator.evaluate 24
       (AlertEvaluator.evaluate 24 [] sample_subscription first_move)
       sample_subscription second_move
     = AlertEvaluator.evaluate 24 [] sample_subscription first_move
  /\ filter (AlertEvaluator.in_dedupe_window 24 (Sql.hours 110)
               sample_subscription)
            (AlertEvaluator.evaluate 24
               (AlertEvaluator.evaluate 24 [] sample_subscription first_move)
               sample_subscription second_move)
     = [created]
  /\ List.length
       (AlertEvaluator.evaluate 24
          (AlertEvaluator.evaluate 24 [] sample_subscription first_move)
          sample_subscription second_move)
     = 1%nat
  /\ AlertHistory.subscription_id created = Some 10
  /\ AlertHistory.issuer_id created = Some 1
  /\ AlertHistory.score_change created = Some 6.0%float
  /\ AlertHistory.triggered_at created = Some (Sql.hours 100).
Proof.
  apply (second_qualifying_move_is_suppressed 24 [] sample_subscription
           first_move second_move).
  - reflexivity.
  - reflexivity.
  - reflexivity.
  - reflexivity.
  - reflexivity.
  - vm_compute. discriminate.
  - vm_compute. discriminate.
  - reflexivity.
Defined.

(** Two qualifying moves of an active subscription, ten hours apart and so
    inside one window of 24 hours, create no AlertHistory row when the
    history holds an alert of the subscription that is one hour older than
    the first move: both are suppressed.  Nor do they create one for a
    subscription that is switched off. *)
Lemma two_qualifying_moves_create_no_alert :
  AlertSubscription.is_active sample_subscription = Some true
  /\ AlertEvaluator.qualifies sample_subscription first_move = true
  /\ AlertEvaluator.qualifies sample_subscription second_move = true
  /\ AlertEvaluator.c_now first_move <= AlertEvaluator.c_now second_move
  /\ AlertEvaluator.c_now second_move - Sql.hours 24
     <= AlertEvaluator.c_now first_move
  /\ AlertEvaluator.evaluate 24
       (AlertEvaluator.evaluate 24 earlier_alert sample_subscription
                                first_move)
       sample_subscription second_move
     = earlier_alert
  /\ AlertEvaluator.qualifies inactive_subscription first_move = true
  /\ AlertEvaluator.qualifies inactive_subscription second_move = true
  /\ AlertEvaluator.evaluate 24
       (AlertEvaluator.evaluate 24 [] inactive_subscription first_move)
       inactive_subscription second_move
     = [].
Proof.
  repeat split; try reflexivity; vm_compute; discriminate.
Qed.

(* ================================================================== *)
(** ** The sorted issuer table *)

Section NullsLast.
Variable localeCompare : string -> string -> float.
Variable sortField : IssuerTable.key.
Variable sortDirection : IssuerTable.direction.

Let null (a : IssuerTable.Issuer) : bool :=
  IssuerTable.is_null (IssuerTable.get a sortField).

Let stays_in_front (a b : IssuerTable.Issuer) : bool :=
  negb (PrimFloat.ltb 0
          (IssuerTable.compareFn localeCompare sortField sortDirection a b)).

(** A null value against a value that is not null compares as 1, the other
    way round as -1. *)
Lemma compareFn_null_left (a b : IssuerTable.Issuer) :
  null a = true -> null b = false ->
  IssuerTable.compareFn localeCompare sortField sortDirection a b = 1%float.
Proof.
  unfold null, IssuerTable.compareFn. cbv zeta.
  destruct (IssuerTable.get a sortField), (IssuerTable.get b sortField);
    simpl; intros; try discriminate; reflexivity.
Qed.



Lemma nulls_last_split (l : list IssuerTable.Issuer) :
  StronglySorted (fun a b => null a = true -> null b = true) l ->
  exists present missing,
    l = present ++ missing
    /\ Forall (fun a => null a = false) present
    /\ Forall (fun a => null a = true) missing.
Proof.
  induction 1 as [|x l Hs IH Hx].
  - exists [], []. repeat split; constructor.
  - destruct (null x) eqn:Ex.
    + exists [], (x :: l). repeat split; [constructor|].
      constructor; [exact Ex|].
      rewrite Forall_forall in *. intros y Hy. now apply Hx.
    + destruct IH as [present [missing [-> [Hp Hm]]]].
      exists (x :: present), missing. repeat split; [|exact Hm].
      now constructor.
Qed.

(** Any arrangement in which no issuer stands in front of one that the
    comparator puts before it has the nulls last, whichever algorithm
    produced it. *)
Lemma nulls_last_of_any_sorted (l : list IssuerTable.Issuer) :
  StronglySorted (fun a b => stays_in_front a b = true) l ->
  exists present missing,
    l = present ++ missing
    /\ Forall (fun a => null a = false) present
    /\ Forall (fun a => null a = true) missing.
Proof.
  intros H. apply nulls_last_split.
  apply (StronglySorted_weaken (fun a b => stays_in_front a b = true));
    [|exact H].
  intros a b Hab Ha. destruct (null b) eqn:Hb; [reflexivity|].
  unfold stays_in_front in Hab.
  rewrite (compareFn_null_left a b Ha Hb) in Hab. discriminate.
Qed.
End NullsLast.

Example sortedIssuers_sample :
  let row id score :=
    IssuerTable.mk id "n" None None None score None 0%float None in
  let issuers := [row 1 None; row 2 (Some 70.5); row 3 None; row 4 (Some 88.1)]%float in
  let ids dir :=
    map IssuerTable.id
        (IssuerTable.sortedIssuers (fun _ _ => 0%float) issuers
                                   IssuerTable.k_score dir) in
  ids IssuerTable.desc = [4; 2; 1; 3]%float
  /\ ids IssuerTable.asc = [2; 4; 1; 3]%float.
Proof. split; reflexivity. Qed.


(* ================================================================== *)
(** ** More about [get_score_change] *)

Lemma scores_of_head (score : list Score.row) (i : Z) (s0 : Score.row) :
  In s0 score -> Score.issuer_id s0 = Some i ->
  exists c rest,
    Sql.order_by (Sql.desc Score.ts) (Db.scores_of score i) = c :: rest
    /\ In c score
    /\ Score.issuer_id c = Some i
    /\ forall s', In s' score -> Score.issuer_id s' = Some i ->
                  Score.ts s' <= Score.ts c.
Proof.
  intros Hin Hid.
  assert (Hne : Db.scores_of score i <> []).
  { intros E. assert (H : In s0 (Db.scores_of score i))
      by now apply scores_of_In.
    rewrite E in H. contradiction. }
  destruct (order_by_desc_head Score.ts _ Hne) as [c [rest [E [Hc Hmax]]]].
  apply scores_of_In in Hc. destruct Hc as [Hc1 Hc2].
  exists c, rest. repeat split; try assumption.
  intros s' H1 H2. apply Hmax. now apply scores_of_In.
Qed.

Lemma get_score_change_prior_rows (score : list Score.row)
    (issuer_id hours_back : Z) (c p : Score.row) :
  In c score -> Score.issuer_id c = Some issuer_id ->
  (forall s', In s' score -> Score.issuer_id s' = Some issuer_id ->
              Score.ts s' <= Score.ts c) ->
  In p score -> Score.issuer_id p = Some issuer_id ->
  Score.ts p <= Score.ts c - Sql.hours hours_back ->
  exists c' p',
    In c' score /\ Score.issuer_id c' = Some issuer_id
    /\ Score.ts c' = Score.ts c
    /\ In p' score /\ Score.issuer_id p' = Some issuer_id
    /\ Score.ts p' <= Score.ts c - Sql.hours hours_back
    /\ (forall q, In q score -> Score.issuer_id q = Some issuer_id ->
                  Score.ts q <= Score.ts c - Sql.hours hours_back ->
                  Score.ts q <= Score.ts p')
    /\ Db.get_score_change score issuer_id hours_back
       = [Db.mk_change (Score.score c' - Score.score p')%float
                       (Score.score c') (Score.score p')].
Proof.
  intros Hc Hci Hcmax Hp Hpi Hpt.
  destruct (scores_of_head score issuer_id c Hc Hci)
    as [c' [rest [E [Hc' [Hci' Hmax']]]]].
  assert (Ets : Score.ts c' = Score.ts c).
  { pose proof (Hcmax c' Hc' Hci'). pose proof (Hmax' c Hc Hci). lia. }
  set (prior := fun s : Score.row =>
                  Sql.int_eq (Score.issuer_id s) issuer_id
                  && (Score.ts s <=? Score.ts c' - Sql.hours hours_back)).
  assert (Hprior : forall s, In s (filter prior score) <->
                             In s score /\ Score.issuer_id s = Some issuer_id
                             /\ Score.ts s <= Score.ts c - Sql.hours hours_back).
  { intros s. rewrite filter_In. unfold prior.
    rewrite andb_true_iff, int_eq_true, Z.leb_le, Ets. tauto. }
  assert (Hne : filter prior score <> []).
  { intros E0. assert (H : In p (filter prior score)) by (apply Hprior; tauto).
    rewrite E0 in H. contradiction. }
  destruct (order_by_desc_head Score.ts _ Hne) as [p' [rest' [E' [Hp' Hpmax]]]].
  apply Hprior in Hp'. destruct Hp' as [Hp1 [Hp2 Hp3]].
  exists c', p'. repeat split; try assumption.
  - intros q Hq1 Hq2 Hq3. apply Hpmax. apply Hprior. tauto.
  - unfold Db.get_score_change, Db.previous_score_cte, Db.current_score_cte.
    rewrite E. simpl.
    fold prior. rewrite E'. reflexivity.
Qed.

(** X1.  When the issuer has a score at or before the latest timestamp minus
    [hours_back] hours, [get_score_change] returns exactly one row: the
    current score is the score of a row with the latest timestamp, the
    previous score is the score of a row with the greatest timestamp at or
    before the boundary, and the change is their difference. *)
Theorem get_score_change_with_prior (score : list Score.row)
    (issuer_id hours_back : Z) (c p : Score.row) :
  In c score -> Score.issuer_id c = Some issuer_id ->
  (forall s', In s' score -> Score.issuer_id s' = Some issuer_id ->
              Score.ts s' <= Score.ts c) ->
  In p score -> Score.issuer_id p = Some issuer_id ->
  Score.ts p <= Score.ts c - Sql.hours hours_back ->
  exists c' p',
    In c' score /\ Score.issuer_id c' = Some issuer_id
    /\ Score.ts c' = Score.ts c
    /\ In p' score /\ Score.issuer_id p' = Some issuer_id
    /\ Score.ts p' <= Score.ts c - Sql.hours hours_back
    /\ (forall q, In q score -> Score.issuer_id q = Some issuer_id ->
                  Score.ts q <= Score.ts c - Sql.hours hours_back ->
                  Score.ts q <= Score.ts p')
    /\ Db.get_score_change score issuer_id hours_back
       = [Db.mk_change (Score.score c' - Score.score p')%float
                       (Score.score c') (Score.score p')].
Proof. apply get_score_change_prior_rows. Qed.

Lemma get_score_change_with_prior_witness :
  exists c' p',
    In c' sample_score /\ Score.issuer_id c' = Some 1
    /\ Score.ts c' = 200
    /\ In p' sample_score /\ Score.issuer_id p' = Some 1
    /\ Score.ts p' <= 200 - Sql.hours 0
    /\ (forall q, In q sample_score -> Score.issuer_id q = Some 1 ->
                  Score.ts q <= 200 - Sql.hours 0 ->
                  Score.ts q <= Score.ts p')
    /\ Db.get_score_change sample_score 1 0
       = [Db.mk_change (Score.score c' - Score.score p')%float
                       (Score.score c') (Score.score p')].
Proof.
  apply (get_score_change_with_prior sample_score 1 0
           (Score.mk 3 (Some 1) 200 88.1%float "AA" None None None None None
                     None)
           (Score.mk 1 (Some 1) 100 87.2%float "AA" None None None None None
                     None)).
  - simpl. tauto.
  - reflexivity.
  - intros s' [<- | [<- | [<- | []]]] H; simpl in *; try lia; discriminate.
  - simpl. tauto.
  - reflexivity.
  - vm_compute. discriminate.
Defined.

(** X2.  [get_score_change] never returns more than one row, and the current
    score of the row it returns is the score that [get_latest_score] returns
    for the issuer. *)
Theorem get_score_change_at_most_one (score : list Score.row)
    (issuer_id hours_back : Z) :
  (List.length (Db.get_score_change score issuer_id hours_back) <= 1)%nat
  /\ Forall (fun r => map Db.ls_score (Db.get_latest_score score issuer_id)
                      = [Db.current_score r])
            (Db.get_score_change score issuer_id hours_back).
Proof.
  unfold Db.get_score_change, Db.previous_score_cte, Db.current_score_cte,
    Db.get_latest_score.
  destruct (Sql.order_by (Sql.desc Score.ts) (Db.scores_of score issuer_id))
    as [|c rest]; simpl.
  - split; [lia | constructor].
  - match goal with
    | |- context [Sql.order_by ?b (filter ?f score)] =>
        destruct (Sql.order_by b (filter f score)) as [|q rest']
    end; simpl.
    + split; [lia | constructor].
    + split; [lia|]. constructor; [reflexivity | constructor].
Qed.

(** X3.  With [hours_back] at or below zero the boundary is not before the
    latest timestamp, every score of the issuer passes it, and the function
    compares the latest score with itself. *)
Theorem get_score_change_nonpositive_hours (score : list Score.row)
    (issuer_id hours_back : Z) (s0 : Score.row) :
  hours_back <= 0 ->
  In s0 score -> Score.issuer_id s0 = Some issuer_id ->
  exists c,
    In c score /\ Score.issuer_id c = Some issuer_id
    /\ (forall s', In s' score -> Score.issuer_id s' = Some issuer_id ->
                   Score.ts s' <= Score.ts c)
    /\ Db.get_score_change score issuer_id hours_back
       = [Db.mk_change (Score.score c - Score.score c)%float
                       (Score.score c) (Score.score c)].
Proof.
  intros Hh Hin Hid.
  destruct (scores_of_head score issuer_id s0 Hin Hid)
    as [c [rest [E [Hc [Hci Hmax]]]]].
  exists c. repeat split; try assumption.
  unfold Db.get_score_change, Db.previous_score_cte, Db.current_score_cte.
  rewrite E. simpl.
  rewrite (filter_ext_in _
             (fun s => Sql.int_eq (Score.issuer_id s) issuer_id)).
  - fold (Db.scores_of score issuer_id). rewrite E. reflexivity.
  - intros s Hs.
    destruct (Sql.int_eq (Score.issuer_id s) issuer_id) eqn:Ei; [|reflexivity].
    apply int_eq_true in Ei. simpl. apply Z.leb_le.
    pose proof (Hmax s Hs Ei). unfold Sql.hours, Sql.USECS_PER_HOUR. lia.
Qed.

Lemma get_score_change_nonpositive_hours_witness :
  exists c,
    In c sample_score /\ Score.issuer_id c = Some 1
    /\ (forall s', In s' sample_score -> Score.issuer_id s' = Some 1 ->
                   Score.ts s' <= Score.ts c)
    /\ Db.get_score_change sample_score 1 (-5)
       = [Db.mk_change (Score.score c - Score.score c)%float
                       (Score.score c) (Score.score c)].
Proof.
  apply (get_score_change_nonpositive_hours sample_score 1 (-5)
           (Score.mk 1 (Some 1) 100 87.2%float "AA" None None None None None
                     None)).
  - lia.
  - simpl. tauto.
  - reflexivity.
Defined.

(* ================================================================== *)
(** ** More about [get_active_events] *)

Lemma is_active_event_true (now : Sql.timestamp) (issuer_id hours_back : Z)
    (e : Event.row) :
  Db.is_active_event now issuer_id hours_back e = true <->
  Event.issuer_id e = Some issuer_id
  /\ now - Sql.hours hours_back <= Event.ts e
  /\ exists d, Event.decay_factor e = Some d
               /\ Sql.float8_gt d 0.1%float = true.
Proof.
  unfold Db.is_active_event, Sql.float8_col_gt, Db.significance_floor.
  rewrite !andb_true_iff, int_eq_true, Z.leb_le.
  destruct (Event.decay_factor e) as [d|].
  - split.
    + intros [[H1 H2] H3]. repeat split; try assumption. now exists d.
    + intros [H1 [H2 [d' [[= <-] H3]]]]. tauto.
  - split.
    + intros [_ H]. discriminate.
    + intros [_ [_ [d' [H _]]]]. discriminate.
Qed.

(** X4.  [get_active_events] loses nothing and invents nothing: every event of
    the issuer inside the window whose decay factor is above 0.1 is
    returned, the rows are a rearrangement of exactly these events, and they
    come from the newest to the oldest. *)
Theorem get_active_events_complete (event : list Event.row)
    (now : Sql.timestamp) (issuer_id hours_back : Z) :
  let rows := Db.get_active_events event now issuer_id hours_back in
  Forall (fun e =>
            Event.issuer_id e = Some issuer_id ->
            now - Sql.hours hours_back <= Event.ts e ->
            (exists d, Event.decay_factor e = Some d
                       /\ Sql.float8_gt d 0.1%float = true) ->
            exists r,
              In r rows
              /\ r = Db.active_of e
              /\ Db.ae_event_id r = Event.id e
              /\ Db.ae_event_type r = Event.type e
              /\ Db.ae_headline r = Event.headline e
              /\ Db.ae_sentiment r = Event.sentiment e
              /\ Db.ae_weight r = Event.weight e
              /\ Db.ae_decay_factor r = Event.decay_factor e
              /\ Db.ae_ts r = Event.ts e)
         event
  /\ Permutation
       (map Db.active_of
            (filter (Db.is_active_event now issuer_id hours_back) event))
       rows
  /\ StronglySorted (fun r1 r2 => Db.ae_ts r2 <= Db.ae_ts r1) rows.
Proof.
  cbv zeta. unfold Db.get_active_events. repeat split.
  - apply Forall_forall. intros e He H1 H2 H3.
    exists (Db.active_of e). split; [|repeat split].
    apply in_map. unfold Sql.order_by. apply sort_In.
    apply filter_In. split; [exact He|].
    apply is_active_event_true. tauto.
  - apply Permutation_map. unfold Sql.order_by. apply sort_perm.
  - apply StronglySorted_map. apply order_by_desc_sorted.
Qed.

(** X5.  A longer look back never hides an event that a shorter one shows. *)
Theorem get_active_events_monotone (event : list Event.row)
    (now : Sql.timestamp) (issuer_id h1 h2 : Z) (r : Db.active_event_row) :
  h1 <= h2 ->
  In r (Db.get_active_events event now issuer_id h1) ->
  In r (Db.get_active_events event now issuer_id h2).
Proof.
  unfold Db.get_active_events, Sql.order_by. intros Hh H.
  apply in_map_iff in H. destruct H as [e [<- H]].
  apply sort_In in H. apply filter_In in H. destruct H as [He Ha].
  apply in_map. apply sort_In. apply filter_In. split; [exact He|].
  apply is_active_event_true in Ha. apply is_active_event_true.
  destruct Ha as [H1 [H2 H3]]. repeat split; try assumption.
  unfold Sql.hours, Sql.USECS_PER_HOUR in *. lia.
Qed.

Lemma get_active_events_monotone_witness :
  In (Db.active_of (sample_event 4 1 20 (Some 0.9%float)))
     (Db.get_active_events sample_events sample_now 1 168).
Proof.
  apply (get_active_events_monotone sample_events sample_now 1 24 168).
  - lia.
  - vm_compute. left. reflexivity.
Defined.

(** X6.  With a look back below zero only events dated after [now()] can pass:
    when no stored event is dated in the future, nothing is returned. *)
Theorem get_active_events_negative_hours (event : list Event.row)
    (now : Sql.timestamp) (issuer_id hours_back : Z) :
  hours_back < 0 ->
  (forall e, In e event -> Event.ts e <= now) ->
  Db.get_active_events event now issuer_id hours_back = [].
Proof.
  intros Hh Hpast. unfold Db.get_active_events.
  rewrite filter_none; [reflexivity|].
  intros e He.
  destruct (Db.is_active_event now issuer_id hours_back e) eqn:E;
    [|reflexivity].
  apply is_active_event_true in E. destruct E as [_ [Ht _]].
  pose proof (Hpast e He). unfold Sql.hours, Sql.USECS_PER_HOUR in Ht. lia.
Qed.

Lemma get_active_events_negative_hours_witness :
  Db.get_active_events sample_events sample_now 1 (-1) = [].
Proof.
  apply (get_active_events_negative_hours sample_events sample_now 1 (-1)).
  - lia.
  - intros e He. simpl in He.
    repeat (destruct He as [<- | He]; [vm_compute; discriminate|]).
    contradiction.
Defined.

(* ================================================================== *)
(** ** The view [issuer_summary] *)

Example issuer_summary_sample :
  map (fun r => (IssuerSummary.id r, IssuerSummary.latest_score r,
                 IssuerSummary.latest_score_ts r))
      (IssuerSummary.issuer_summary
         (sample_issuers ++ [Issuer.mk 3 "Tesla" None None None None])
         sample_score)
  = [(1, Some 88.1%float, Some 200); (2, Some 70.0%float, Some 150);
     (3, None, None)].
Proof. reflexivity. Qed.

Lemma issuer_summary_rows_of (score : list Score.row) (i : Issuer.row) :
  match IssuerSummary.latest score i with
  | [] => [(i, None)]
  | m => map (fun b => (i, Some b)) m
  end
  = [(i, hd_error (Db.get_latest_score score (Issuer.id i)))].
Proof.
  change (IssuerSummary.latest score i)
    with (Db.get_latest_score score (Issuer.id i)).
  unfold Db.get_latest_score.
  destruct (Sql.order_by (Sql.desc Score.ts)
              (Db.scores_of score (Issuer.id i))) as [|c rest];
    reflexivity.
Qed.

(** X7.  [issuer_summary] has exactly one row for every issuer, also for an
    issuer without scores; the score columns of the row are those of the
    row that [get_latest_score] returns for the issuer, and NULL when it
    returns none. *)
Theorem issuer_summary_one_row_per_issuer (issuer : list Issuer.row)
    (score : list Score.row) :
  Forall2
    (fun i r =>
       r = IssuerSummary.summary_of
             (i, hd_error (Db.get_latest_score score (Issuer.id i)))
       /\ IssuerSummary.id r = Issuer.id i
       /\ IssuerSummary.name r = Issuer.name i
       /\ IssuerSummary.ticker r = Issuer.ticker i
       /\ IssuerSummary.sector r = Issuer.sector i
       /\ IssuerSummary.country r = Issuer.country i
       /\ match Db.get_latest_score score (Issuer.id i) with
          | l :: _ =>
              IssuerSummary.latest_score r = Some (Db.ls_score l)
              /\ IssuerSummary.latest_bucket r = Some (Db.ls_bucket l)
              /\ IssuerSummary.latest_score_ts r = Some (Db.ls_ts l)
              /\ IssuerSummary.base r = Db.ls_base l
              /\ IssuerSummary.market r = Db.ls_market l
              /\ IssuerSummary.event_delta r = Db.ls_event_delta l
              /\ IssuerSummary.macro_adj r = Db.ls_macro_adj l
          | [] =>
              IssuerSummary.latest_score r = None
              /\ IssuerSummary.latest_bucket r = None
              /\ IssuerSummary.latest_score_ts r = None
              /\ IssuerSummary.base r = None
              /\ IssuerSummary.market r = None
              /\ IssuerSummary.event_delta r = None
              /\ IssuerSummary.macro_adj r = None
          end)
    issuer (IssuerSummary.issuer_summary issuer score).
Proof.
  unfold IssuerSummary.issuer_summary, IssuerSummary.left_join_lateral.
  induction issuer as [|i issuer IH].
  - constructor.
  - cbn [flat_map]. rewrite map_app, issuer_summary_rows_of.
    cbn [map app]. constructor; [|exact IH].
    destruct (Db.get_latest_score score (Issuer.id i)) as [|l rest];
      simpl; repeat split.
Qed.

(* ================================================================== *)
(** ** More about the view [recent_alerts] *)

Lemma left_join_complete {A B : Type} (on : A -> B -> bool) (l : list A)
    (r : list B) (a : A) :
  In a l -> exists ob, In (a, ob) (Sql.left_join on l r).
Proof.
  intros Ha. unfold Sql.left_join.
  destruct (filter (on a) r) as [|b m] eqn:E.
  - exists None. apply in_flat_map. exists a. split; [exact Ha|].
    rewrite E. now left.
  - exists (Some b). apply in_flat_map. exists a. split; [exact Ha|].
    rewrite E. now left.
Qed.

(** X8.  Every alert of the last 24 hours whose issuer exists is in the view. *)
Theorem recent_alerts_complete (alert_history : list AlertHistory.row)
    (issuer : list Issuer.row)
    (alert_subscription : list AlertSubscription.row) (now : Sql.timestamp)
    (ah : AlertHistory.row) (i : Issuer.row) (t : Sql.timestamp) :
  In ah alert_history ->
  AlertHistory.triggered_at ah = Some t ->
  now - Sql.hours 24 <= t ->
  In i issuer ->
  AlertHistory.issuer_id ah = Some (Issuer.id i) ->
  exists asub r,
    r = Db.recent_of (ah, i, asub)
    /\ In r (Db.recent_alerts alert_history issuer alert_subscription now)
    /\ Db.ra_id r = AlertHistory.id ah
    /\ Db.ra_alert_type r = AlertHistory.alert_type ah
    /\ Db.ra_message r = AlertHistory.message ah
    /\ Db.ra_score_change r = AlertHistory.score_change ah
    /\ Db.ra_triggered_at r = Some t
    /\ Db.ra_issuer_name r = Issuer.name i
    /\ Db.ra_ticker r = Issuer.ticker i.
Proof.
  intros Hah Ht Hrecent Hi Hid.
  assert (Hj : In (ah, i) (Sql.inner_join Db.on_issuer alert_history issuer)).
  { apply inner_join_In. repeat split; try assumption.
    unfold Db.on_issuer. now apply int_eq_true. }
  destruct (left_join_complete Db.on_subscription _ alert_subscription _ Hj)
    as [asub Hl].
  exists asub, (Db.recent_of (ah, i, asub)).
  split; [reflexivity|]. split; [|simpl; repeat split; exact Ht].
  unfold Db.recent_alerts. apply in_map.
  unfold Sql.order_by. apply sort_In. apply filter_In. split; [exact Hl|].
  unfold Db.joined_triggered_at, Sql.ts_ge. simpl. rewrite Ht.
  now apply Z.leb_le.
Qed.

Lemma recent_alerts_complete_witness :
  exists asub r,
    r = Db.recent_of (sample_alert 5 (Some 10) (Some 1) 2,
                      Issuer.mk 1 "Apple Inc" (Some "AAPL"%string) None None
                                None,
                      asub)
    /\ In r (Db.recent_alerts sample_alerts sample_issuers
                              sample_subscriptions sample_now)
    /\ Db.ra_id r = 5
    /\ Db.ra_alert_type r = "score_change"%string
    /\ Db.ra_message r = None
    /\ Db.ra_score_change r = Some 6.0%float
    /\ Db.ra_triggered_at r = Some (sample_now - Sql.hours 2)
    /\ Db.ra_issuer_name r = "Apple Inc"%string
    /\ Db.ra_ticker r = Some "AAPL"%string.
Proof.
  apply (recent_alerts_complete sample_alerts sample_issuers
           sample_subscriptions sample_now
           (sample_alert 5 (Some 10) (Some 1) 2)
           (Issuer.mk 1 "Apple Inc" (Some "AAPL"%string) None None None)
           (sample_now - Sql.hours 2)).
  - simpl. tauto.
  - reflexivity.
  - vm_compute. discriminate.
  - simpl. tauto.
  - reflexivity.
Defined.

(** A key that is unique in a table matches at most one of its rows. *)
Lemma filter_unique_key {B : Type} (key : B -> Z) (col : option Z)
    (r : list B) :
  NoDup (map key r) ->
  filter (fun b => Sql.int_eq col (key b)) r = []
  \/ exists b, filter (fun b => Sql.int_eq col (key b)) r = [b].
Proof.
  induction r as [|a r IH]; intros Hnd; simpl.
  - now left.
  - inversion Hnd as [|? ? Hnotin Hnd']; subst.
    destruct (Sql.int_eq col (key a)) eqn:Ea.
    + right. exists a. f_equal. apply filter_none. intros b Hb.
      destruct (Sql.int_eq col (key b)) eqn:Eb; [|reflexivity].
      apply int_eq_true in Ea. apply int_eq_true in Eb.
      exfalso. apply Hnotin.
      assert (key a = key b) by congruence.
      rewrite H. now apply in_map.
    + now apply IH.
Qed.

Lemma filter_nil_existsb {B : Type} (f : B -> bool) (r : list B) :
  existsb f r = negb (match filter f r with [] => true | _ => false end).
Proof.
  induction r as [|a r IH]; simpl; [reflexivity|].
  destruct (f a); simpl; [reflexivity | exact IH].
Qed.

(** The rows that one alert contributes to the view when the keys are
    unique: one row when it is recent and its issuer exists, none
    otherwise. *)
Lemma recent_rows_of_alert (issuer : list Issuer.row)
    (alert_subscription : list AlertSubscription.row) (now : Sql.timestamp)
    (ah : AlertHistory.row) :
  NoDup (map Issuer.id issuer) ->
  NoDup (map AlertSubscription.id alert_subscription) ->
  map (fun j : Db.joined => AlertHistory.id (fst (fst j)))
      (filter (fun j => Sql.ts_ge (Db.joined_triggered_at j)
                                  (now - Sql.hours 24))
              (Sql.left_join Db.on_subscription
                 (map (fun i => (ah, i)) (filter (Db.on_issuer ah) issuer))
                 alert_subscription))
  = if Sql.ts_ge (AlertHistory.triggered_at ah) (now - Sql.hours 24)
       && existsb (Db.on_issuer ah) issuer
    then [AlertHistory.id ah] else [].
Proof.
  intros Hi Hs.
  rewrite (filter_nil_existsb (Db.on_issuer ah) issuer).
  destruct (filter_unique_key Issuer.id (AlertHistory.issuer_id ah) issuer Hi)
    as [E | [i E]];
    change (fun b => Sql.int_eq (AlertHistory.issuer_id ah) (Issuer.id b))
      with (Db.on_issuer ah) in E; rewrite E; simpl.
  - now rewrite andb_false_r.
  - destruct (filter_unique_key AlertSubscription.id
                (AlertHistory.subscription_id ah) alert_subscription Hs)
      as [E' | [sub E']];
      change (fun b => Sql.int_eq (AlertHistory.subscription_id ah)
                                  (AlertSubscription.id b))
        with (Db.on_subscription (ah, i)) in E'; rewrite E'; simpl;
      unfold Db.joined_triggered_at; simpl;
      destruct (Sql.ts_ge (AlertHistory.triggered_at ah)
                          (now - Sql.hours 24)); reflexivity.
Qed.

Lemma left_join_app {A B : Type} (on : A -> B -> bool) (l1 l2 : list A)
    (r : list B) :
  Sql.left_join on (l1 ++ l2) r = Sql.left_join on l1 r ++ Sql.left_join on l2 r.
Proof. unfold Sql.left_join. apply flat_map_app. Qed.

Lemma recent_ids_of_alerts (alert_history : list AlertHistory.row)
    (issuer : list Issuer.row)
    (alert_subscription : list AlertSubscription.row) (now : Sql.timestamp) :
  NoDup (map Issuer.id issuer) ->
  NoDup (map AlertSubscription.id alert_subscription) ->
  map AlertHistory.id
      (filter (fun ah =>
                 Sql.ts_ge (AlertHistory.triggered_at ah) (now - Sql.hours 24)
                 && existsb (Db.on_issuer ah) issuer)
              alert_history)
  = map (fun j : Db.joined => AlertHistory.id (fst (fst j)))
        (filter (fun j => Sql.ts_ge (Db.joined_triggered_at j)
                                    (now - Sql.hours 24))
                (Sql.left_join Db.on_subscription
                   (Sql.inner_join Db.on_issuer alert_history issuer)
                   alert_subscription)).
Proof.
  intros Hi Hs.
  induction alert_history as [|ah rest IH]; [reflexivity|].
  change (Sql.inner_join Db.on_issuer (ah :: rest) issuer)
    with (map (fun i => (ah, i)) (filter (Db.on_issuer ah) issuer)
          ++ Sql.inner_join Db.on_issuer rest issuer).
  rewrite left_join_app, filter_app, map_app.
  pose proof (recent_rows_of_alert issuer alert_subscription now ah Hi Hs)
    as Hrow.
  etransitivity; [|apply f_equal2; [symmetry; exact Hrow | exact IH]].
  cbn [filter].
  destruct (Sql.ts_ge (AlertHistory.triggered_at ah) (now - Sql.hours 24)
            && existsb (Db.on_issuer ah) issuer); reflexivity.
Qed.

(** X9.  With the primary keys of [issuer] and [alert_subscription] unique, the
    view neither repeats nor drops an alert: its rows carry exactly the ids
    of the stored alerts that are recent and whose issuer exists, each as
    often as it is stored. *)
Theorem recent_alerts_one_row_per_alert
    (alert_history : list AlertHistory.row) (issuer : list Issuer.row)
    (alert_subscription : list AlertSubscription.row) (now : Sql.timestamp) :
  NoDup (map Issuer.id issuer) ->
  NoDup (map AlertSubscription.id alert_subscription) ->
  Permutation
    (map AlertHistory.id
         (filter (fun ah =>
                    Sql.ts_ge (AlertHistory.triggered_at ah)
                              (now - Sql.hours 24)
                    && existsb (Db.on_issuer ah) issuer)
                 alert_history))
    (map Db.ra_id
         (Db.recent_alerts alert_history issuer alert_subscription now)).
Proof.
  intros Hi Hs.
  rewrite (recent_ids_of_alerts alert_history issuer alert_subscription now
             Hi Hs).
  unfold Db.recent_alerts. rewrite map_map.
  rewrite (map_ext (fun j => Db.ra_id (Db.recent_of j))
                   (fun j : Db.joined => AlertHistory.id (fst (fst j))))
    by (intros [[a i] o]; reflexivity).
  apply Permutation_map. unfold Sql.order_by. apply sort_perm.
Qed.

Lemma recent_alerts_one_row_per_alert_witness :
  Permutation
    (map AlertHistory.id
         (filter (fun ah =>
                    Sql.ts_ge (AlertHistory.triggered_at ah)
                              (sample_now - Sql.hours 24)
                    && existsb (Db.on_issuer ah) sample_issuers)
                 sample_alerts))
    (map Db.ra_id
         (Db.recent_alerts sample_alerts sample_issuers sample_subscriptions
                           sample_now)).
Proof.
  apply (recent_alerts_one_row_per_alert sample_alerts sample_issuers
           sample_subscriptions sample_now).
  - simpl. repeat constructor; simpl; intuition discriminate.
  - simpl. repeat constructor; simpl; intuition.
Defined.

(* ================================================================== *)
(** ** The sort controls of the issuer table *)



Example handleSort_sample :
  let click := IssuerTableView.handleSort in
  click IssuerTable.k_score IssuerTableView.initial_state
  = IssuerTableView.mk_state IssuerTable.k_score IssuerTable.asc
  /\ click IssuerTable.k_name IssuerTableView.initial_state
     = IssuerTableView.mk_state IssuerTable.k_name IssuerTable.desc.
Proof. split; reflexivity. Qed.



(* ================================================================== *)
(** ** Rows without a value keep their order *)


Section NullsKeepOrder.
Variable localeCompare : string -> string -> float.
Variable sortField : IssuerTable.key.
Variable sortDirection : IssuerTable.direction.






End NullsKeepOrder.


(* ================================================================== *)
(** ** The score badge *)

Lemma lower_char_idempotent (c : Ascii.ascii) :
  IssuerTableView.lower_char (IssuerTableView.lower_char c)
  = IssuerTableView.lower_char c.
Proof.
  destruct c as [[|] [|] [|] [|] [|] [|] [|] [|]]; reflexivity.
Qed.

Lemma toLowerCase_idempotent (s : string) :
  IssuerTableView.toLowerCase (IssuerTableView.toLowerCase s)
  = IssuerTableView.toLowerCase s.
Proof.
  induction s as [|c s IH]; simpl; [reflexivity|].
  now rewrite lower_char_idempotent, IH.
Qed.

(** X18.  Of the seven rating labels, AAA and AA share the class [score-aaa], BBB,
    BB, B and CCC have a class of their own, and A has none: it gets the
    grey class of a missing bucket.  The class does not depend on the case
    of the letters of the bucket. *)
Theorem getScoreBadgeClass_labels :
  map IssuerTableView.getScoreBadgeClass
      [Some "AAA"; Some "AA"; Some "A"; Some "BBB"; Some "BB"; Some "B";
       Some "CCC"; None; Some ""]%string
  = ["score-badge score-aaa"; "score-badge score-aaa";
     "score-badge bg-gray-100 text-gray-800";
     "score-badge score-bbb"; "score-badge score-bb"; "score-badge score-b";
     "score-badge score-ccc";
     "score-badge bg-gray-100 text-gray-800";
     "score-badge bg-gray-100 text-gray-800"]%string
  /\ forall bucket : string,
      IssuerTableView.getScoreBadgeClass
        (Some (IssuerTableView.toLowerCase bucket))
      = IssuerTableView.getScoreBadgeClass (Some bucket).
Proof.
  split; [reflexivity|].
  intros [|c b]; [reflexivity|].
  unfold IssuerTableView.getScoreBadgeClass.
  change (IssuerTableView.toLowerCase (String c b))
    with (String (IssuerTableView.lower_char c)
                 (IssuerTableView.toLowerCase b)).
  cbv zeta.
  change (String (IssuerTableView.lower_char c)
                 (IssuerTableView.toLowerCase b))
    with (IssuerTableView.toLowerCase (String c b)).
  rewrite toLowerCase_idempotent. reflexivity.
Qed.

(* ================================================================== *)
(** ** Reading the latest score after a write *)

(** X11.  Once a score of the issuer is stored that is newer than all its other
    scores, wherever it stands in the table, [get_latest_score] returns that
    row and only that row: one row, with the seven columns of the new
    score. *)
Theorem get_latest_score_after_insert (score : list Score.row)
    (issuer_id : Z) (n : Score.row) :
  In n score ->
  Score.issuer_id n = Some issuer_id ->
  (forall s, In s score -> Score.issuer_id s = Some issuer_id ->
             s = n \/ Score.ts s < Score.ts n) ->
  exists r,
    Db.get_latest_score score issuer_id = [r]
    /\ r = Db.latest_of n
    /\ Db.ls_score r = Score.score n
    /\ Db.ls_bucket r = Score.bucket n
    /\ Db.ls_ts r = Score.ts n
    /\ Db.ls_base r = Score.base n
    /\ Db.ls_market r = Score.market n
    /\ Db.ls_event_delta r = Score.event_delta n
    /\ Db.ls_macro_adj r = Score.macro_adj n.
Proof.
  intros Hn Hni Hnew.
  destruct (scores_of_head score issuer_id n Hn Hni)
    as [c [rest [E [Hc [Hci Hmax]]]]].
  exists (Db.latest_of n). repeat split.
  unfold Db.get_latest_score. rewrite E. simpl.
  destruct (Hnew c Hc Hci) as [-> | Hlt]; [reflexivity|].
  pose proof (Hmax n Hn Hni). lia.
Qed.

Lemma get_latest_score_after_insert_witness :
  exists r,
    Db.get_latest_score
      (sample_score
       ++ [Score.mk 4 (Some 1) 300 90.0%float "AA" None None None None None
                    None]) 1
    = [r]
    /\ r = Db.latest_of (Score.mk 4 (Some 1) 300 90.0%float "AA" None None
                                  None None None None)
    /\ Db.ls_score r = 90.0%float
    /\ Db.ls_bucket r = "AA"%string
    /\ Db.ls_ts r = 300
    /\ Db.ls_base r = None
    /\ Db.ls_market r = None
    /\ Db.ls_event_delta r = None
    /\ Db.ls_macro_adj r = None.
Proof.
  apply (get_latest_score_after_insert _ 1
           (Score.mk 4 (Some 1) 300 90.0%float "AA" None None None None None
                     None)).
  - apply in_or_app. right. now left.
  - reflexivity.
  - intros s Hs Hi. apply in_app_or in Hs.
    destruct Hs as [[<- | [<- | [<- | []]]] | [<- | []]];
      simpl in *; try discriminate; try (right; lia); now left.
Defined.

(** X12.  Storing a score that is older than the latest score of the issuer
    (a backfill) leaves the timestamp that [get_latest_score] reports as it
    was. *)
Theorem get_latest_score_after_backfill (score score' : list Score.row)
    (issuer_id : Z) (o c : Score.row) :
  (forall s, In s score' <-> s = o \/ In s score) ->
  In c score -> Score.issuer_id c = Some issuer_id ->
  Score.ts o < Score.ts c ->
  map Db.ls_ts (Db.get_latest_score score' issuer_id)
  = map Db.ls_ts (Db.get_latest_score score issuer_id).
Proof.
  intros Hrows Hc Hci Hold.
  destruct (scores_of_head score issuer_id c Hc Hci)
    as [c0 [rest [E [Hc0 [Hc0i Hmax]]]]].
  assert (Hc' : In c score') by (apply Hrows; now right).
  destruct (scores_of_head score' issuer_id c Hc' Hci)
    as [c1 [rest' [E' [Hc1 [Hc1i Hmax']]]]].
  unfold Db.get_latest_score. rewrite E, E'. simpl. f_equal.
  apply Hrows in Hc1. destruct Hc1 as [-> | Hc1].
  - pose proof (Hmax' c Hc' Hci). lia.
  - pose proof (Hmax c1 Hc1 Hc1i).
    assert (In c0 score') by (apply Hrows; now right).
    pose proof (Hmax' c0 H0 Hc0i). lia.
Qed.

Lemma get_latest_score_after_backfill_witness :
  map Db.ls_ts
      (Db.get_latest_score
         (Score.mk 4 (Some 1) 50 60.0%float "BBB" None None None None None
                   None :: sample_score) 1)
  = map Db.ls_ts (Db.get_latest_score sample_score 1).
Proof.
  apply (get_latest_score_after_backfill sample_score _ 1
           (Score.mk 4 (Some 1) 50 60.0%float "BBB" None None None None None
                     None)
           (Score.mk 3 (Some 1) 200 88.1%float "AA" None None None None None
                     None)).
  - intros s. simpl. intuition.
  - simpl. tauto.
  - reflexivity.
  - simpl. lia.
Defined.

(* ================================================================== *)
(** ** Deleting an issuer *)

Lemma not_referencing_In {A : Type} (col : A -> option Z) (x : Z)
    (child : list A) (r : A) :
  In r (Database.not_referencing col x child) <->
  In r child /\ col r <> Some x.
Proof.
  unfold Database.not_referencing. rewrite filter_In, negb_true_iff.
  split; intros [H1 H2]; split; try assumption.
  - intros E. apply int_eq_true in E. congruence.
  - destruct (Sql.int_eq (col r) x) eqn:E; [|reflexivity].
    apply int_eq_true in E. contradiction.
Qed.

Lemma remaining_issuer_ids (x k : Z) (issuer : list Issuer.row) :
  In k (map Issuer.id issuer) -> k <> x ->
  In k (map Issuer.id (filter (fun i => negb (Issuer.id i =? x)) issuer)).
Proof.
  intros Hk Hne. apply in_map_iff in Hk. destruct Hk as [i [<- Hi]].
  apply in_map. apply filter_In. split; [exact Hi|].
  apply negb_true_iff. now apply Z.eqb_neq.
Qed.

Lemma references_after_delete {A : Type} (col : A -> option Z) (x : Z)
    (child : list A) (issuer : list Issuer.row) :
  Database.references col child (map Issuer.id issuer) ->
  Database.references col (Database.not_referencing col x child)
    (map Issuer.id (filter (fun i => negb (Issuer.id i =? x)) issuer)).
Proof.
  intros H r k Hr Hk. apply not_referencing_In in Hr. destruct Hr as [Hr Hx].
  apply remaining_issuer_ids; [now apply (H r)|]. congruence.
Qed.

Lemma filter_absorb {A : Type} (f g : A -> bool) (l : list A) :
  (forall a, f a = true -> g a = true) ->
  filter f (filter g l) = filter f l.
Proof.
  intros H. induction l as [|a l IH]; simpl; [reflexivity|].
  destruct (g a) eqn:Eg; simpl.
  - now rewrite IH.
  - destruct (f a) eqn:Ef; [|exact IH].
    rewrite (H a Ef) in Eg. discriminate.
Qed.

(** X13.  Deleting an issuer keeps every foreign key of the schema in force and
    leaves no row that references the issuer.  With the subscriptions of the
    issuer go the alerts that reference them, also alerts that name another
    issuer.  Afterwards [get_latest_score] returns nothing for the deleted
    issuer and what it returned before for every other issuer. *)
Theorem delete_issuer_cascade (x : Z) (d : Database.t) :
  Database.foreign_keys d ->
  let d' := Database.delete_issuer x d in
  Database.foreign_keys d'
  /\ ~ In x (map Issuer.id (Database.issuer d'))
  /\ (forall r, In r (Database.price d') -> Price.issuer_id r <> Some x)
  /\ (forall r, In r (Database.feature_snapshot d') ->
                FeatureSnapshot.issuer_id r <> Some x)
  /\ (forall r, In r (Database.score d') -> Score.issuer_id r <> Some x)
  /\ (forall r, In r (Database.event d') -> Event.issuer_id r <> Some x)
  /\ (forall r, In r (Database.alert_subscription d') ->
                AlertSubscription.issuer_id r <> Some x)
  /\ (forall r, In r (Database.alert_history d') ->
                AlertHistory.issuer_id r <> Some x)
  /\ (forall a sub,
         In a (Database.alert_history d') ->
         In sub (Database.alert_subscription d) ->
         AlertHistory.subscription_id a = Some (AlertSubscription.id sub) ->
         AlertSubscription.issuer_id sub <> Some x)
  /\ Db.get_latest_score (Database.score d') x = []
  /\ (forall y, y <> x ->
                Db.get_latest_score (Database.score d') y
                = Db.get_latest_score (Database.score d) y).
Proof.
  intros [Hp [Hf [Hs [He [Hsub [Hai Has]]]]]]. cbv zeta.
  assert (Hgone : forall a sub,
             In a (Database.alert_history (Database.delete_issuer x d)) ->
             In sub (Database.alert_subscription d) ->
             AlertHistory.subscription_id a
             = Some (AlertSubscription.id sub) ->
             AlertSubscription.issuer_id sub <> Some x).
  { intros a sub Ha Hsub' Eid Ex. simpl in Ha.
    apply filter_In in Ha. destruct Ha as [_ Ha].
    apply andb_prop in Ha. destruct Ha as [_ Ha].
    apply negb_true_iff in Ha.
    assert (Ht : existsb (Sql.int_eq (AlertHistory.subscription_id a))
                   (map AlertSubscription.id
                      (filter (fun s => Sql.int_eq
                                          (AlertSubscription.issuer_id s) x)
                              (Database.alert_subscription d))) = true).
    { apply existsb_exists. exists (AlertSubscription.id sub). split.
      - apply in_map. apply filter_In. split; [exact Hsub'|].
        now apply int_eq_true.
      - now apply int_eq_true. }
    congruence. }
  split; [|split; [|repeat split]].
  - unfold Database.foreign_keys. cbv zeta. simpl.
    repeat split; try (now apply references_after_delete).
    + intros a k Ha Hk. apply filter_In in Ha. destruct Ha as [Ha Hx].
      apply andb_prop in Hx. destruct Hx as [Hx _].
      apply negb_true_iff in Hx.
      apply remaining_issuer_ids; [now apply (Hai a)|].
      intros ->. rewrite Hk in Hx. simpl in Hx.
      rewrite Z.eqb_refl in Hx. discriminate.
    + intros a k Ha Hk.
      pose proof Ha as Ha'. apply filter_In in Ha'. destruct Ha' as [Ha0 _].
      pose proof (Has a k Ha0 Hk) as Hin.
      apply in_map_iff in Hin. destruct Hin as [sub [Eid Hin]].
      apply in_map_iff. exists sub. split; [exact Eid|].
      apply not_referencing_In. split; [exact Hin|].
      apply (Hgone a sub); [exact Ha | exact Hin | congruence].
  - simpl. intros Hin. apply in_map_iff in Hin.
    destruct Hin as [i [Ei Hi]]. apply filter_In in Hi.
    destruct Hi as [_ Hi]. apply negb_true_iff in Hi.
    apply Z.eqb_neq in Hi. contradiction.
  - intros r Hr. simpl in Hr. now apply not_referencing_In in Hr.
  - intros r Hr. simpl in Hr. now apply not_referencing_In in Hr.
  - intros r Hr. simpl in Hr. now apply not_referencing_In in Hr.
  - intros r Hr. simpl in Hr. now apply not_referencing_In in Hr.
  - intros r Hr. simpl in Hr. now apply not_referencing_In in Hr.
  - intros r Hr. simpl in Hr. apply filter_In in Hr. destruct Hr as [_ Hr].
    apply andb_prop in Hr. destruct Hr as [Hr _].
    apply negb_true_iff in Hr. intros E. apply int_eq_true in E. congruence.
  - exact Hgone.
  - simpl. unfold Db.get_latest_score, Db.scores_of.
    rewrite filter_none; [reflexivity|].
    intros s Hs'. apply not_referencing_In in Hs'. destruct Hs' as [_ Hx].
    destruct (Sql.int_eq (Score.issuer_id s) x) eqn:E; [|reflexivity].
    apply int_eq_true in E. contradiction.
  - intros y Hy. simpl. unfold Db.get_latest_score, Db.scores_of,
      Database.not_referencing.
    rewrite filter_absorb; [reflexivity|].
    intros s Hsy. apply int_eq_true in Hsy. apply negb_true_iff.
    destruct (Sql.int_eq (Score.issuer_id s) x) eqn:E; [|reflexivity].
    apply int_eq_true in E. congruence.
Qed.

Lemma sample_database_foreign_keys : Database.foreign_keys sample_database.
Proof.
  unfold Database.foreign_keys, Database.references. cbv zeta. simpl.
  repeat split; intros r k Hr Hk;
    repeat (destruct Hr as [<- | Hr];
            [vm_compute in Hk; try discriminate;
             injection Hk as <-; simpl; tauto|]);
    contradiction.
Qed.

Lemma delete_issuer_cascade_witness :
  Db.get_latest_score
    (Database.score (Database.delete_issuer 1 sample_database)) 1 = []
  /\ map AlertHistory.id
         (Database.alert_history (Database.delete_issuer 2 sample_database))
     = [1; 2; 4; 5].
Proof.
  split.
  - apply (proj1 (proj2 (proj2 (proj2 (proj2 (proj2 (proj2 (proj2 (proj2
             (proj2 (delete_issuer_cascade 1 sample_database
                       sample_database_foreign_keys))))))))))).
  - reflexivity.
Defined.

(** X10.  With the foreign key on [subscription_id] in force, a row of
    [recent_alerts] lacks its subscription only when the alert has no
    subscription id at all. *)
Theorem recent_alerts_subscription_present
    (alert_history : list AlertHistory.row) (issuer : list Issuer.row)
    (alert_subscription : list AlertSubscription.row) (now : Sql.timestamp) :
  Database.references AlertHistory.subscription_id alert_history
                      (map AlertSubscription.id alert_subscription) ->
  Forall
    (fun r =>
       exists ah i asub,
         r = Db.recent_of (ah, i, asub)
         /\ In ah alert_history
         /\ Db.ra_id r = AlertHistory.id ah
         /\ match asub with
            | Some sub =>
                In sub alert_subscription
                /\ AlertHistory.subscription_id ah
                   = Some (AlertSubscription.id sub)
                /\ Db.ra_email r = AlertSubscription.email sub
                /\ Db.ra_webhook_url r = AlertSubscription.webhook_url sub
            | None =>
                AlertHistory.subscription_id ah = None
                /\ Db.ra_email r = None
                /\ Db.ra_webhook_url r = None
            end)
    (Db.recent_alerts alert_history issuer alert_subscription now).
Proof.
  intros Hfk. apply Forall_forall. intros r Hr.
  unfold Db.recent_alerts in Hr.
  apply in_map_iff in Hr. destruct Hr as [[[ah i] asub] [<- Hj]].
  unfold Sql.order_by in Hj. apply sort_In in Hj.
  apply filter_In in Hj. destruct Hj as [Hj _].
  apply left_join_In in Hj. destruct Hj as [Hl Hsub].
  apply inner_join_In in Hl. destruct Hl as [Hah _].
  exists ah, i, asub. split; [reflexivity|]. split; [exact Hah|].
  split; [reflexivity|].
  destruct asub as [sub|].
  - destruct Hsub as [Hs Hon]. split; [exact Hs|].
    split; [|split; reflexivity].
    unfold Db.on_subscription in Hon. now apply int_eq_true in Hon.
  - split; [|split; reflexivity].
    destruct (AlertHistory.subscription_id ah) as [k|] eqn:Ek; [|reflexivity].
    pose proof (Hfk ah k Hah Ek) as Hin.
    apply in_map_iff in Hin. destruct Hin as [sub [Eid Hin]].
    specialize (Hsub sub Hin). unfold Db.on_subscription in Hsub.
    simpl in Hsub. rewrite Ek in Hsub. simpl in Hsub.
    rewrite Eid, Z.eqb_refl in Hsub. discriminate.
Qed.

Lemma recent_alerts_subscription_present_witness :
  Forall
    (fun r =>
       exists ah i asub,
         r = Db.recent_of (ah, i, asub)
         /\ In ah sample_alerts
         /\ Db.ra_id r = AlertHistory.id ah
         /\ match asub with
            | Some sub =>
                In sub sample_subscriptions
                /\ AlertHistory.subscription_id ah
                   = Some (AlertSubscription.id sub)
                /\ Db.ra_email r = AlertSubscription.email sub
                /\ Db.ra_webhook_url r = AlertSubscription.webhook_url sub
            | None =>
                AlertHistory.subscription_id ah = None
                /\ Db.ra_email r = None
                /\ Db.ra_webhook_url r = None
            end)
    (Db.recent_alerts sample_alerts sample_issuers sample_subscriptions
                      sample_now).
Proof.
  apply (recent_alerts_subscription_present sample_alerts sample_issuers
           sample_subscriptions sample_now).
  intros r k Hr Hk. simpl in Hr.
  repeat (destruct Hr as [<- | Hr];
          [vm_compute in Hk; try discriminate;
           injection Hk as <-; simpl; tauto|]).
  contradiction.
Defined.

(* ================================================================== *)
(** ** Deleting a subscription *)

(** X14.  Deleting a subscription keeps every foreign key in force, deletes the
    alerts that reference it and keeps every other alert, also the alerts
    without subscription. *)
Theorem delete_subscription_cascade (x : Z) (d : Database.t) :
  Database.foreign_keys d ->
  let d' := Database.delete_subscription x d in
  Database.foreign_keys d'
  /\ ~ In x (map AlertSubscription.id (Database.alert_subscription d'))
  /\ (forall a, In a (Database.alert_history d') <->
                In a (Database.alert_history d)
                /\ AlertHistory.subscription_id a <> Some x).
Proof.
  intros [Hp [Hf [Hs [He [Hsub [Hai Has]]]]]]. cbv zeta. split; [|split].
  - unfold Database.foreign_keys. cbv zeta. simpl.
    repeat split; try assumption.
    + intros r k Hr Hk. apply filter_In in Hr.
      destruct Hr as [Hr _]. now apply (Hsub r).
    + intros a k Ha Hk. apply not_referencing_In in Ha.
      destruct Ha as [Ha _]. now apply (Hai a).
    + intros a k Ha Hk. apply not_referencing_In in Ha.
      destruct Ha as [Ha Hx].
      pose proof (Has a k Ha Hk) as Hin.
      apply in_map_iff in Hin. destruct Hin as [sub [Eid Hin]].
      apply in_map_iff. exists sub. split; [exact Eid|].
      apply filter_In. split; [exact Hin|].
      apply negb_true_iff. apply Z.eqb_neq. congruence.
  - simpl. intros Hin. apply in_map_iff in Hin.
    destruct Hin as [sub [Eid Hin]]. apply filter_In in Hin.
    destruct Hin as [_ Hin]. apply negb_true_iff in Hin.
    apply Z.eqb_neq in Hin. contradiction.
  - intros a. simpl. apply not_referencing_In.
Qed.

Lemma delete_subscription_cascade_witness :
  ~ In 10 (map AlertSubscription.id
               (Database.alert_subscription
                  (Database.delete_subscription 10 sample_database))).
Proof.
  apply (proj1 (proj2 (delete_subscription_cascade 10 sample_database
                         sample_database_foreign_keys))).
Defined.

(* ================================================================== *)
(** ** The seed and the score functions *)

Lemma seed_rows_of (now : Sql.timestamp) (next_id : Z) (s : Score.row)
    (i : Z) :
  In s (Seed.score now next_id) -> Score.issuer_id s = Some i ->
  exists v,
    In v (filter (fun v => Seed.v_issuer_id v =? i) Seed.values)
    /\ Score.ts s = now - Sql.hours (Seed.v_hours_ago v)
    /\ Score.score s = Seed.v_score v.
Proof.
  intros Hs Hi. unfold Seed.score in Hs.
  apply insert_into_score_In in Hs. destruct Hs as [id [v [Hv ->]]].
  simpl in Hi. injection Hi as Hi.
  exists v. repeat split. apply filter_In. split; [exact Hv|].
  now apply Z.eqb_eq.
Qed.

Section SeedOnTable.
Variable score : list Score.row.
Variable now : Sql.timestamp.
Variables next_id i : Z.
Variables v48 v24 : Seed.values_row.

(** The seed holds, for issuer [i], a row of 48 hours ago and a row of 24
    hours ago, and nothing else. *)
Hypothesis Hrows :
  filter (fun v => Seed.v_issuer_id v =? i) Seed.values = [v48; v24].
Hypothesis H48 : Seed.v_hours_ago v48 = 48.
Hypothesis H24 : Seed.v_hours_ago v24 = 24.

(** The two seeded rows of the issuer are in the table after the script. *)
Lemma seed_run_rows :
  exists s48 s24,
    In s48 (Seed.run score now next_id) /\ Score.issuer_id s48 = Some i
    /\ Score.ts s48 = now - Sql.hours 48
    /\ In s24 (Seed.run score now next_id) /\ Score.issuer_id s24 = Some i
    /\ Score.ts s24 = now - Sql.hours 24.
Proof.
  assert (Hin : forall v, In v [v48; v24] ->
                          In v Seed.values /\ Seed.v_issuer_id v = i).
  { intros v Hv. rewrite <- Hrows in Hv. apply filter_In in Hv.
    destruct Hv as [Hv Hi]. split; [exact Hv | now apply Z.eqb_eq]. }
  destruct (Hin v24) as [Hv24 Hi24]; [simpl; tauto|].
  destruct (Hin v48) as [Hv48 Hi48]; [simpl; tauto|].
  destruct (insert_into_score_complete now Seed.values next_id v24 Hv24)
    as [id24 Hc].
  destruct (insert_into_score_complete now Seed.values next_id v48 Hv48)
    as [id48 Hp].
  exists (Seed.score_row now id48 v48), (Seed.score_row now id24 v24).
  split; [apply in_or_app; right; exact Hp|].
  split; [exact (f_equal Some Hi48)|].
  split; [exact (f_equal (fun h => now - Sql.hours h) H48)|].
  split; [apply in_or_app; right; exact Hc|].
  split; [exact (f_equal Some Hi24)|].
  exact (f_equal (fun h => now - Sql.hours h) H24).
Qed.

(** A score of the issuer in the table after the script was there before, or
    is one of the two seeded rows. *)
Lemma seed_run_rows_of (s : Score.row) :
  In s (Seed.run score now next_id) -> Score.issuer_id s = Some i ->
  In s score
  \/ (Score.ts s = now - Sql.hours 48 /\ Score.score s = Seed.v_score v48)
  \/ (Score.ts s = now - Sql.hours 24 /\ Score.score s = Seed.v_score v24).
Proof.
  intros Hs Hsi. unfold Seed.run in Hs. apply in_app_or in Hs.
  destruct Hs as [Hs | Hs]; [now left | right].
  destruct (seed_rows_of now next_id s i Hs Hsi) as [v [Hv [Et Es]]].
  rewrite Hrows in Hv. destruct Hv as [E | [E | []]]; subst v.
  - left. split; [rewrite Et, H48; reflexivity | exact Es].
  - right. split; [rewrite Et, H24; reflexivity | exact Es].
Qed.

(** Whatever the table held, after the script [get_score_change] over 24
    hours has a row for the issuer: the seeded row of 48 hours ago lies at
    or before the boundary. *)
Lemma seed_run_has_change :
  exists c p,
    In c (Seed.run score now next_id) /\ Score.issuer_id c = Some i
    /\ (forall s, In s (Seed.run score now next_id) -> Score.issuer_id s = Some i ->
                  Score.ts s <= Score.ts c)
    /\ In p (Seed.run score now next_id) /\ Score.issuer_id p = Some i
    /\ Score.ts p <= Score.ts c - Sql.hours 24
    /\ Db.get_score_change (Seed.run score now next_id) i 24
       = [Db.mk_change (Score.score c - Score.score p)%float
                       (Score.score c) (Score.score p)].
Proof.
  destruct seed_run_rows as [s48 [s24 [H1 [H2 [H3 [H4 [H5 H6]]]]]]].
  destruct (scores_of_head (Seed.run score now next_id) i s24 H4 H5)
    as [c [rest [_ [Hc [Hci Hmax]]]]].
  destruct (get_score_change_prior_rows (Seed.run score now next_id) i 24 c s48 Hc Hci Hmax H1 H2)
    as [c' [p' [Hc1 [Hc2 [Hc3 [Hp1 [Hp2 [Hp3 [_ E]]]]]]]]].
  { pose proof (Hmax s24 H4 H5) as Hge. rewrite H6 in Hge. rewrite H3.
    unfold Sql.hours, Sql.USECS_PER_HOUR in *. lia. }
  exists c', p'. repeat split; try assumption.
  - intros s Hs Hsi. rewrite Hc3. now apply Hmax.
  - now rewrite Hc3.
Qed.

(** When the table held no score of the issuer, the seeded row of 24 hours
    ago is its latest score and the change is the one between the two
    seeded rows. *)
Lemma seed_run_without_other :
  (forall s, In s score -> Score.issuer_id s <> Some i) ->
  map Db.ls_score (Db.get_latest_score (Seed.run score now next_id) i) = [Seed.v_score v24]
  /\ Db.get_score_change (Seed.run score now next_id) i 24
     = [Db.mk_change (Seed.v_score v24 - Seed.v_score v48)%float
                     (Seed.v_score v24) (Seed.v_score v48)].
Proof.
  intros Hnone.
  assert (Hts : forall s, In s (Seed.run score now next_id) -> Score.issuer_id s = Some i ->
                          (Score.ts s = now - Sql.hours 48
                           /\ Score.score s = Seed.v_score v48)
                          \/ (Score.ts s = now - Sql.hours 24
                              /\ Score.score s = Seed.v_score v24)).
  { intros s Hs Hsi. destruct (seed_run_rows_of s Hs Hsi) as [H | H];
      [|exact H].
    exfalso. exact (Hnone s H Hsi). }
  destruct seed_run_rows as [s48 [s24 [H1 [H2 [H3 [H4 [H5 H6]]]]]]].
  assert (Hmax : forall s, In s (Seed.run score now next_id) -> Score.issuer_id s = Some i ->
                           Score.ts s <= Score.ts s24).
  { intros s Hs Hsi. rewrite H6.
    destruct (Hts s Hs Hsi) as [[-> _] | [-> _]];
      unfold Sql.hours, Sql.USECS_PER_HOUR; lia. }
  split.
  - destruct (scores_of_head (Seed.run score now next_id) i s24 H4 H5)
      as [c [rest [E [Hc1 [Hc2 Hc3]]]]].
    unfold Db.get_latest_score. rewrite E. simpl. f_equal.
    pose proof (Hc3 s24 H4 H5) as Hge. rewrite H6 in Hge.
    destruct (Hts c Hc1 Hc2) as [[Et _] | [_ Es]]; [|exact Es].
    rewrite Et in Hge. unfold Sql.hours, Sql.USECS_PER_HOUR in Hge. lia.
  - destruct (get_score_change_prior_rows (Seed.run score now next_id) i 24 s24 s48
                H4 H5 Hmax H1 H2)
      as [c' [p' [Hc1 [Hc2 [Hc3 [Hp1 [Hp2 [Hp3 [_ ->]]]]]]]]].
    { rewrite H3, H6. unfold Sql.hours, Sql.USECS_PER_HOUR. lia. }
    rewrite H6 in Hc3, Hp3.
    assert (Ec : Score.score c' = Seed.v_score v24).
    { destruct (Hts c' Hc1 Hc2) as [[Et _] | [_ Es]]; [|exact Es].
      rewrite Et in Hc3. unfold Sql.hours, Sql.USECS_PER_HOUR in Hc3. lia. }
    assert (Ep : Score.score p' = Seed.v_score v48).
    { destruct (Hts p' Hp1 Hp2) as [[_ Es] | [Et _]]; [exact Es|].
      rewrite Et in Hp3. unfold Sql.hours, Sql.USECS_PER_HOUR in Hp3. lia. }
    now rewrite Ec, Ep.
Qed.

(** When the table held one score of the issuer, newer than 24 hours before
    the script ran, that score stays the latest, and the change is taken
    against the seeded row of 24 hours ago when the score is dated at or
    after the run of the script, against the seeded row of 48 hours ago when
    it is dated before. *)
Lemma seed_run_with_current (c : Score.row) :
  In c score -> Score.issuer_id c = Some i ->
  (forall s, In s score -> Score.issuer_id s = Some i -> s = c) ->
  now - Sql.hours 24 < Score.ts c ->
  map Db.ls_score (Db.get_latest_score (Seed.run score now next_id) i) = [Score.score c]
  /\ Db.get_score_change (Seed.run score now next_id) i 24
     = [Db.mk_change
          (Score.score c
           - (if (now <=? Score.ts c)%Z then Seed.v_score v24
              else Seed.v_score v48))%float
          (Score.score c)
          (if now <=? Score.ts c then Seed.v_score v24
           else Seed.v_score v48)].
Proof.
  intros Hc Hci Hone Hnew.
  assert (Hct : In c (Seed.run score now next_id)) by (apply in_or_app; now left).
  assert (Hts : forall s, In s (Seed.run score now next_id) -> Score.issuer_id s = Some i ->
                          s = c
                          \/ (Score.ts s = now - Sql.hours 48
                              /\ Score.score s = Seed.v_score v48)
                          \/ (Score.ts s = now - Sql.hours 24
                              /\ Score.score s = Seed.v_score v24)).
  { intros s Hs Hsi. destruct (seed_run_rows_of s Hs Hsi) as [H | H];
      [left; now apply Hone | right; exact H]. }
  destruct seed_run_rows as [s48 [s24 [H1 [H2 [H3 [H4 [H5 H6]]]]]]].
  assert (Hmax : forall s, In s (Seed.run score now next_id) -> Score.issuer_id s = Some i ->
                           Score.ts s <= Score.ts c).
  { intros s Hs Hsi.
    destruct (Hts s Hs Hsi) as [-> | [[Et _] | [Et _]]];
      [lia | rewrite Et | rewrite Et];
      unfold Sql.hours, Sql.USECS_PER_HOUR in *; lia. }
  assert (Hsame : forall s, In s (Seed.run score now next_id) -> Score.issuer_id s = Some i ->
                            Score.ts s = Score.ts c -> s = c).
  { intros s Hs Hsi Et.
    destruct (Hts s Hs Hsi) as [E | [[Et' _] | [Et' _]]]; [exact E | |];
      rewrite Et' in Et; unfold Sql.hours, Sql.USECS_PER_HOUR in *; lia. }
  split.
  - destruct (scores_of_head (Seed.run score now next_id) i c Hct Hci)
      as [c0 [rest [E [Hc1 [Hc2 Hc3]]]]].
    unfold Db.get_latest_score. rewrite E. simpl. f_equal.
    assert (E0 : c0 = c).
    { apply Hsame; try assumption.
      pose proof (Hc3 c Hct Hci). pose proof (Hmax c0 Hc1 Hc2). lia. }
    now rewrite E0.
  - destruct (get_score_change_prior_rows (Seed.run score now next_id) i 24 c s48
                Hct Hci Hmax H1 H2)
      as [c' [p' [Hc1 [Hc2 [Hc3 [Hp1 [Hp2 [Hp3 [Hp4 ->]]]]]]]]].
    { rewrite H3. unfold Sql.hours, Sql.USECS_PER_HOUR in *. lia. }
    assert (Ec : c' = c) by now apply Hsame.
    assert (Ep : Score.score p'
                 = if now <=? Score.ts c then Seed.v_score v24
                   else Seed.v_score v48).
    { destruct (now <=? Score.ts c) eqn:Enow.
      - apply Z.leb_le in Enow.
        assert (H24' : Score.ts s24 <= Score.ts p').
        { apply Hp4; try assumption. rewrite H6.
          unfold Sql.hours, Sql.USECS_PER_HOUR. lia. }
        rewrite H6 in H24'.
        destruct (Hts p' Hp1 Hp2) as [E | [[Et _] | [_ Es]]]; [| |exact Es].
        + rewrite E in Hp3. unfold Sql.hours, Sql.USECS_PER_HOUR in Hp3. lia.
        + rewrite Et in H24'.
          unfold Sql.hours, Sql.USECS_PER_HOUR in H24'. lia.
      - apply Z.leb_gt in Enow.
        destruct (Hts p' Hp1 Hp2) as [E | [[_ Es] | [Et _]]]; [|exact Es|].
        + rewrite E in Hp3. unfold Sql.hours, Sql.USECS_PER_HOUR in Hp3. lia.
        + rewrite Et in Hp3.
          unfold Sql.hours, Sql.USECS_PER_HOUR in Hp3. lia. }
    now rewrite Ec, Ep.
Qed.
End SeedOnTable.

Example seed_after_current_score :
  Db.get_score_change (Seed.run sample_current sample_now 2) 4 24
  = [Db.mk_change (79.5 - 80.1)%float 79.5%float 80.1%float]
  /\ Db.get_score_change (Seed.run [] sample_now 1) 4 24
     = [Db.mk_change (80.1 - 81.2)%float 80.1%float 81.2%float].
Proof. split; reflexivity. Qed.

(** X15.  The script adds, for every one of the 15 issuers, a score of 48
    hours ago and a score of 24 hours ago to the table.  Whatever the table
    held, [get_score_change] over 24 hours then has a row for the issuer.
    When the table held no score of the issuer, the seeded row of 24 hours
    ago is its latest score and the change is the one from the seeded row of
    48 hours ago to it.  When the table held one score of the issuer, newer
    than 24 hours before the run, that score stays the latest and the change
    is taken against the seeded row of 24 hours ago if the score is dated at
    or after the run, against the row of 48 hours ago if it is dated before.
    The change between the two seeded rows is negative for Amazon (4) and
    Tesla (5), the two issuers that the script marks as declining, and for
    no other issuer. *)
Theorem seed_score_changes (score : list Score.row) (now : Sql.timestamp)
    (next_id i : Z) :
  1 <= i <= 15 ->
  exists v48 v24,
    In v48 Seed.values /\ In v24 Seed.values
    /\ Seed.v_issuer_id v48 = i /\ Seed.v_issuer_id v24 = i
    /\ Seed.v_hours_ago v48 = 48 /\ Seed.v_hours_ago v24 = 24
    /\ (exists c p,
           In c (Seed.run score now next_id)
           /\ Score.issuer_id c = Some i
           /\ (forall s, In s (Seed.run score now next_id) ->
                         Score.issuer_id s = Some i ->
                         Score.ts s <= Score.ts c)
           /\ In p (Seed.run score now next_id)
           /\ Score.issuer_id p = Some i
           /\ Score.ts p <= Score.ts c - Sql.hours 24
           /\ Db.get_score_change (Seed.run score now next_id) i 24
              = [Db.mk_change (Score.score c - Score.score p)%float
                              (Score.score c) (Score.score p)])
    /\ ((forall s, In s score -> Score.issuer_id s <> Some i) ->
        map Db.ls_score (Db.get_latest_score (Seed.run score now next_id) i)
        = [Seed.v_score v24]
        /\ Db.get_score_change (Seed.run score now next_id) i 24
           = [Db.mk_change (Seed.v_score v24 - Seed.v_score v48)%float
                           (Seed.v_score v24) (Seed.v_score v48)])
    /\ (forall c,
           In c score -> Score.issuer_id c = Some i ->
           (forall s, In s score -> Score.issuer_id s = Some i -> s = c) ->
           now - Sql.hours 24 < Score.ts c ->
           map Db.ls_score
               (Db.get_latest_score (Seed.run score now next_id) i)
           = [Score.score c]
           /\ Db.get_score_change (Seed.run score now next_id) i 24
              = [Db.mk_change
                   (Score.score c
                    - (if (now <=? Score.ts c)%Z then Seed.v_score v24
                       else Seed.v_score v48))%float
                   (Score.score c)
                   (if now <=? Score.ts c then Seed.v_score v24
                    else Seed.v_score v48)])
    /\ (PrimFloat.ltb (Seed.v_score v24 - Seed.v_score v48) 0 = true
        <-> i = 4 \/ i = 5).
Proof.
  intros Hi.
  assert (Hcases : i = 1 \/ i = 2 \/ i = 3 \/ i = 4 \/ i = 5 \/ i = 6
                   \/ i = 7 \/ i = 8 \/ i = 9 \/ i = 10 \/ i = 11
                   \/ i = 12 \/ i = 13 \/ i = 14 \/ i = 15) by lia.
  clear Hi.
  repeat (destruct Hcases as [-> | Hcases]); try subst i.
  all: match goal with
    | |- exists v48 v24, _ /\ _ /\ Seed.v_issuer_id v48 = ?k /\ _ =>
        let rows := eval vm_compute in
                    (filter (fun v => Seed.v_issuer_id v =? k) Seed.values) in
        match rows with
        | [?a; ?b] =>
            exists a, b;
            assert (Hrows : filter (fun v => Seed.v_issuer_id v =? k)
                                   Seed.values = [a; b])
              by (vm_compute; reflexivity);
            pose proof (seed_run_has_change score now next_id k a b
                          Hrows eq_refl eq_refl) as Hany;
            pose proof (seed_run_without_other score now next_id k a b
                          Hrows eq_refl eq_refl) as Hnone;
            pose proof (seed_run_with_current score now next_id k a b
                          Hrows eq_refl eq_refl) as Hone;
            clear Hrows;
            split; [vm_compute; tauto|];
            split; [vm_compute; tauto|];
            split; [reflexivity|]; split; [reflexivity|];
            split; [reflexivity|]; split; [reflexivity|];
            split; [exact Hany|]; split; [exact Hnone|];
            split; [exact Hone|];
            clear Hany Hnone Hone;
            split; intros H;
            [vm_compute in H; first [discriminate | tauto]
            | first [vm_compute; reflexivity
                    | exfalso; destruct H as [H | H]; discriminate H]]
        end
    end.
Qed.

Lemma seed_score_changes_witness :
  map Db.ls_score (Db.get_latest_score (Seed.run sample_current sample_now 2) 4)
  = [79.5%float]
  /\ Db.get_score_change (Seed.run sample_current sample_now 2) 4 24
     = [Db.mk_change (79.5 - 80.1)%float 79.5%float 80.1%float].
Proof.
  destruct (seed_score_changes sample_current sample_now 2 4 ltac:(lia))
    as [v48 [v24 [H1 [H2 [H3 [H4 [H5 [H6 [_ [_ [Hone _]]]]]]]]]]].
  assert (E24 : Seed.v_score v24 = 80.1%float).
  { simpl in H2.
    repeat (destruct H2 as [<- | H2];
            [first [discriminate H4 | discriminate H6 | reflexivity]|]).
    contradiction. }
  destruct (Hone (Score.mk 1 (Some 4) sample_now 79.5%float "A"
                           (Some 58.2%float) (Some 11.4%float)
                           (Some 7.2%float) (Some 2.7%float)
                           (Some "v1.0"%string) None))
    as [Hl Hc].
  - left. reflexivity.
  - reflexivity.
  - intros s [<- | []] _. reflexivity.
  - vm_compute. reflexivity.
  - split; [exact Hl|].
    change (sample_now <=? Score.ts _) with true in Hc.
    cbv iota in Hc. rewrite E24 in Hc. exact Hc.
Defined.
